(** * proc_demo: argument resolution, child worker and process orchestration

    A shallow embedding of [ch2/process-creation/proc_demo.c].  The program
    re-executes itself twice as a child process ([--child --id=N]), waits for
    each child and reports how it ended.

    The C library and operating-system calls the program makes are modelled
    as nodes of a small program tree ([proc]); a run of one process against
    an environment that answers those calls gives the trace of calls and the
    way the process ended. *)

From Stdlib Require Import ZArith List Bool Lia.
From Stdlib Require Import Strings.Ascii Strings.String.
Import ListNotations.

Open Scope string_scope.
Open Scope Z_scope.

(** ** C strings and the C library *)

Module CStr.

(** [int] and [long] of the LP64 Unix build. *)
Definition INT_MAX : Z := 2147483647.
Definition INT_MIN : Z := -2147483648.
Definition LONG_MAX : Z := 9223372036854775807.
Definition LONG_MIN : Z := -9223372036854775808.

(** Conversion of an integer to [int]: two's complement wrap-around. *)
Definition to_int (z : Z) : Z := (z + 2147483648) mod 4294967296 - 2147483648.

(** Conversion of an [int] to [unsigned int] (the [(UINT)] cast). *)
Definition to_uint (z : Z) : Z := z mod 4294967296.

Definition code (c : ascii) : Z := Z.of_nat (nat_of_ascii c).

(** [strcmp]: zero exactly on equal strings, otherwise the sign of the
    first difference. *)
Fixpoint strcmp (s1 s2 : string) : Z :=
  match s1, s2 with
  | EmptyString, EmptyString => 0
  | EmptyString, String _ _ => -1
  | String _ _, EmptyString => 1
  | String c1 r1, String c2 r2 =>
      if Ascii.eqb c1 c2 then strcmp r1 r2 else code c1 - code c2
  end.

(** [strncmp]: as [strcmp], over at most [n] characters. *)
Fixpoint strncmp (s1 s2 : string) (n : nat) {struct n} : Z :=
  match n with
  | O => 0
  | S n' =>
      match s1, s2 with
      | EmptyString, EmptyString => 0
      | EmptyString, String _ _ => -1
      | String _ _, EmptyString => 1
      | String c1 r1, String c2 r2 =>
          if Ascii.eqb c1 c2 then strncmp r1 r2 n' else code c1 - code c2
      end
  end.

(** Pointer arithmetic [s + n] on a string of at least [n] characters. *)
Fixpoint advance (n : nat) (s : string) {struct n} : string :=
  match n, s with
  | O, _ => s
  | S n', String _ r => advance n' r
  | S _, EmptyString => EmptyString
  end.

(** The first [n] characters of [s]. *)
Fixpoint take (n : nat) (s : string) {struct n} : string :=
  match n, s with
  | S n', String c r => String c (take n' r)
  | _, _ => EmptyString
  end.

(** [isspace] in the C locale: space, and \t \n \v \f \r. *)
Definition isspace (c : ascii) : bool :=
  Z.eqb (code c) 32 || (Z.leb 9 (code c) && Z.leb (code c) 13).

Definition isdigit (c : ascii) : bool :=
  Z.leb 48 (code c) && Z.leb (code c) 57.

Definition digit_val (c : ascii) : Z := code c - 48.

Fixpoint skip_spaces (s : string) : string :=
  match s with
  | String c r => if isspace c then skip_spaces r else s
  | EmptyString => s
  end.

(** The optional sign: whether it is a minus, and the text after it. *)
Definition skip_sign (s : string) : bool * string :=
  match s with
  | String "-" r => (true, r)
  | String "+" r => (false, r)
  | _ => (false, s)
  end.

(** The digit loop: the value of the longest run of leading digits,
    accumulated from [acc]. *)
Fixpoint digits_val (acc : Z) (s : string) : Z :=
  match s with
  | String c r =>
      if isdigit c then digits_val (acc * 10 + digit_val c) r else acc
  | EmptyString => acc
  end.

(** [strtol(s, NULL, 10)]: white space, an optional sign, then digits; the
    result saturates at the bounds of [long]. *)
Definition strtol10 (s : string) : Z :=
  let (neg, r) := skip_sign (skip_spaces s) in
  let v := digits_val 0 r in
  if neg then Z.max LONG_MIN (- v) else Z.min LONG_MAX v.

(** [atoi(s)] is [(int) strtol(s, NULL, 10)]. *)
Definition atoi (s : string) : Z := to_int (strtol10 s).

Definition digit_char (d : Z) : ascii := ascii_of_nat (Z.to_nat (48 + d)).

(** The decimal digits of [n >= 0], most significant first, in front of
    [acc]. *)
Fixpoint dec_aux (fuel : nat) (n : Z) (acc : string) : string :=
  match fuel with
  | O => acc
  | S f =>
      let acc' := String (digit_char (n mod 10)) acc in
      if Z.ltb n 10 then acc' else dec_aux f (n / 10) acc'
  end.

Definition dec (n : Z) : string := dec_aux (S (Z.to_nat (Z.log2 n))) n EmptyString.

(** The conversion [%d] of [printf]. *)
Definition fmt_d (z : Z) : string :=
  if Z.ltb z 0 then String "-" (dec (- z)) else dec z.

End CStr.

(** ** Wait statuses

    The status word that [waitpid] stores and the macros of [<sys/wait.h>]
    that take it apart, as Linux and the GNU C library define them: the low
    seven bits hold the terminating signal (zero after a normal exit), bit 7
    the core-dump flag, bits 8 to 15 the exit status. *)

Module WaitStatus.

(** Conversion to [signed char]. *)
Definition to_schar (z : Z) : Z := (z + 128) mod 256 - 128.

Definition WTERMSIG (status : Z) : Z := Z.land status 127.

Definition WEXITSTATUS (status : Z) : Z := Z.shiftr (Z.land status 65280) 8.

Definition WIFEXITED (status : Z) : bool := WTERMSIG status =? 0.

Definition WIFSIGNALED (status : Z) : bool :=
  0 <? Z.shiftr (to_schar (Z.land status 127 + 1)) 1.

Definition W_EXITCODE (ret sig : Z) : Z := Z.lor (Z.shiftl ret 8) sig.

Definition WCOREFLAG : Z := 128.

(** The status of a process that called [_exit(code)] or returned [code]
    from [main]: only the low eight bits of [code] reach the parent. *)
Definition status_of_exit (code : Z) : Z := W_EXITCODE (Z.land code 255) 0.

(** The status of a process killed by signal [sig], with or without a
    core dump. *)
Definition status_of_signal (sig : Z) (core : bool) : Z :=
  Z.lor sig (if core then WCOREFLAG else 0).

End WaitStatus.

(** ** Processes

    A program is a tree of the calls it makes.  A node holds the arguments
    of the call and the code that follows it; where the call returns a value
    the code that follows is a function of it.  [Exit_], [ExitProcess] and a
    successful [Execvp] never return: the code written after them is kept in
    the tree and [run] never reaches it. *)

Module Proc.

Local Close Scope string_scope.

(** An argument of [printf]. *)
Inductive parg : Type :=
| PInt (z : Z)
| PStr (s : string)
| PNull.

(** The fields of [PROCESS_INFORMATION] the program reads. *)
Record PROCESS_INFORMATION : Type := {
  hProcess : Z;
  hThread : Z;
  dwProcessId : Z
}.

Inductive proc : Type :=
| Return (code : Z)
| Printf (fmt : string) (args : list parg) (k : proc)
| Perror (msg : string) (k : proc)
(* <unistd.h>, <sys/wait.h> *)
| Getpid (k : Z -> proc)
| Getppid (k : Z -> proc)
| Sleep_s (seconds : Z) (k : proc)
| Exit_ (status : Z) (k : proc)
| Fork (k : Z -> proc)
| Execvp (file : option string) (args : list string) (k : proc)
| Waitpid (pid : Z) (status : Z) (options : Z) (k : Z -> proc)
(* <windows.h>, <process.h> *)
| Getpid_w (k : Z -> proc)
| Sleep_ms (milliseconds : Z) (k : proc)
| ExitProcess (code : Z) (k : proc)
| GetModuleFileNameA (size : Z) (k : string -> proc)
| CreateProcessA (cmd : string) (inherit : bool) (flags : Z)
    (k : option PROCESS_INFORMATION -> proc)
| GetLastError (k : Z -> proc)
| WaitForSingleObject (handle : Z) (timeout : Z) (k : proc)
| GetExitCodeProcess (handle : Z) (ec : Z) (k : Z -> proc)
| CloseHandle (handle : Z) (k : proc).

(** A call the process made, with the answer it got. *)
Inductive event : Type :=
| EvPrintf (fmt : string) (args : list parg)
| EvPerror (msg : string)
| EvGetpid (pid : Z)
| EvGetppid (pid : Z)
| EvSleep_s (seconds : Z)
| EvFork (ret : Z)
| EvExecvp (file : option string) (args : list string) (failed : bool)
| EvWaitpid (pid : Z) (options : Z) (ret : Z) (status : Z)
| EvGetpid_w (pid : Z)
| EvSleep_ms (milliseconds : Z)
| EvGetModuleFileNameA (size : Z) (path : string)
| EvCreateProcessA (cmd : string) (inherit : bool) (flags : Z)
    (ret : option PROCESS_INFORMATION)
| EvGetLastError (err : Z)
| EvWaitForSingleObject (handle : Z) (timeout : Z)
| EvGetExitCodeProcess (handle : Z) (ok : bool) (ec : Z)
| EvCloseHandle (handle : Z).

(** How a process ended. *)
Inductive outcome : Type :=
| Returned (code : Z)                              (* [return] from [main] *)
| Exited (status : Z)                              (* [_exit] *)
| ExitedProcess (code : Z)                         (* [ExitProcess] *)
| Replaced (file : option string) (args : list string).  (* [execvp] succeeded *)

(** The environment of one process: the answer to each call, which may
    depend on everything the process did before.

    - [fork_ans]: in the calling process [fork] fails ([None], the call
      returns -1) or returns the positive pid of the new process; the value
      0 is returned in the new process only;
    - [waitpid_ans]: [Some s] when the call succeeds and stores the status
      [s], [None] when it fails and leaves the variable as it was;
    - [exit_code_ans]: the same for [GetExitCodeProcess]. *)
Record env : Type := {
  getpid_ans : Z;
  getppid_ans : Z;
  fork_ans : list event -> option positive;
  execvp_fails : list event -> bool;
  waitpid_ans : list event -> option Z;
  module_file_name : string;
  create_process_ans : list event -> option PROCESS_INFORMATION;
  last_error_ans : list event -> Z;
  exit_code_ans : list event -> option Z
}.

(** What is known of a process when it has ended: the calls it made, the
    code each process it forked starts with (the continuation of [fork]
    at 0), and how it ended. *)
Record result : Type := {
  trace : list event;
  spawned : list proc;
  final : outcome
}.

Definition fork_ret (r : option positive) : Z :=
  match r with
  | Some pid => Z.pos pid
  | None => -1
  end.

Fixpoint run (e : env) (p : proc) (tr : list event) (ch : list proc) : result :=
  match p with
  | Return code => {| trace := tr; spawned := ch; final := Returned code |}
  | Printf fmt args k => run e k (tr ++ [EvPrintf fmt args]) ch
  | Perror msg k => run e k (tr ++ [EvPerror msg]) ch
  | Getpid k => run e (k (getpid_ans e)) (tr ++ [EvGetpid (getpid_ans e)]) ch
  | Getppid k => run e (k (getppid_ans e)) (tr ++ [EvGetppid (getppid_ans e)]) ch
  | Sleep_s n k => run e k (tr ++ [EvSleep_s n]) ch
  | Exit_ status _ => {| trace := tr; spawned := ch; final := Exited status |}
  | Fork k =>
      let r := fork_ans e tr in
      let ch' := match r with Some _ => ch ++ [k 0] | None => ch end in
      run e (k (fork_ret r)) (tr ++ [EvFork (fork_ret r)]) ch'
  | Execvp file args k =>
      if execvp_fails e tr
      then run e k (tr ++ [EvExecvp file args true]) ch
      else {| trace := tr ++ [EvExecvp file args false]; spawned := ch;
              final := Replaced file args |}
  | Waitpid pid status options k =>
      match waitpid_ans e tr with
      | Some s => run e (k s) (tr ++ [EvWaitpid pid options pid s]) ch
      | None => run e (k status) (tr ++ [EvWaitpid pid options (-1) status]) ch
      end
  | Getpid_w k => run e (k (getpid_ans e)) (tr ++ [EvGetpid_w (getpid_ans e)]) ch
  | Sleep_ms n k => run e k (tr ++ [EvSleep_ms n]) ch
  | ExitProcess code _ =>
      {| trace := tr; spawned := ch; final := ExitedProcess code |}
  | GetModuleFileNameA size k =>
      let path := CStr.take (Z.to_nat (size - 1)) (module_file_name e) in
      run e (k path) (tr ++ [EvGetModuleFileNameA size path]) ch
  | CreateProcessA cmd inherit flags k =>
      let r := create_process_ans e tr in
      run e (k r) (tr ++ [EvCreateProcessA cmd inherit flags r]) ch
  | GetLastError k =>
      run e (k (last_error_ans e tr)) (tr ++ [EvGetLastError (last_error_ans e tr)]) ch
  | WaitForSingleObject h t k => run e k (tr ++ [EvWaitForSingleObject h t]) ch
  | GetExitCodeProcess h ec k =>
      match exit_code_ans e tr with
      | Some c => run e (k c) (tr ++ [EvGetExitCodeProcess h true c]) ch
      | None => run e (k ec) (tr ++ [EvGetExitCodeProcess h false ec]) ch
      end
  | CloseHandle h k => run e k (tr ++ [EvCloseHandle h]) ch
  end.

(** A process from its start. *)
Definition start (e : env) (p : proc) : result := run e p [] [].

(** The exit code the system records for the process.  On Unix a parent
    that waits sees the low eight bits of the value given to [_exit] or
    returned from [main]; on Windows the exit code is a 32-bit unsigned
    value.  The program returns nothing but 0 from [main], where the two
    builds agree.  A process whose image was replaced ends as the new image
    does. *)
Definition exit_code (o : outcome) : option Z :=
  match o with
  | Returned code => Some (Z.land code 255)
  | Exited status => Some (Z.land status 255)
  | ExitedProcess code => Some (CStr.to_uint code)
  | Replaced _ _ => None
  end.

End Proc.

(** ** The program *)

Module ProcDemo.
Import CStr WaitStatus Proc.

(** The two builds of the source: [#ifdef _WIN32] and its [#else]. *)
Inductive platform : Type := Posix | Win32.

(** The file-scope variables. *)
Record globals : Type := {
  is_child : Z;
  child_idx : Z
}.

Definition initial_globals : globals := {| is_child := 0; child_idx := 0 |}.

(** The body of the loop of [parse_args], for one [argv[i]]. *)
Definition parse_arg (g : globals) (a : string) : globals :=
  if strcmp a "--child" =? 0 then
    {| is_child := 1; child_idx := child_idx g |}
  else if strncmp a "--id=" 5 =? 0 then
    {| is_child := is_child g; child_idx := atoi (advance 5 a) |}
  else g.

(** [parse_args(argc, argv)], with [argc] the length of [argv]: the loop
    runs over [argv[1]] to [argv[argc - 1]]. *)
Definition parse_args (argv : list string) (g : globals) : globals :=
  fold_left parse_arg (skipn 1 argv) g.

(** [snprintf(buf, size, ...)] keeps the first [size - 1] characters of
    the text it formats. *)
Definition snprintf (size : Z) (text : string) : string :=
  take (Z.to_nat (size - 1)) text.

(** Format strings are the text of the source, escapes as written
    there. *)
Definition child_work (pf : platform) (g : globals) (k : proc) : proc :=
  match pf with
  | Win32 =>
      Getpid_w (fun pid =>
      Printf "[child #%d] pid=%d: hello! working for 1s...\n"
        [PInt (child_idx g); PInt (to_int pid)]
      (Sleep_ms 1000
      (Printf "[child #%d] done.\n" [PInt (child_idx g)]
      (ExitProcess (to_uint (child_idx g)) k))))
  | Posix =>
      Getpid (fun pid =>
      Getppid (fun ppid =>
      Printf "[child #%d] pid=%d ppid=%d: hello! working for 1s...\n"
        [PInt (child_idx g); PInt (to_int pid); PInt (to_int ppid)]
      (Sleep_s 1
      (Printf "[child #%d] done.\n" [PInt (child_idx g)]
      (Exit_ (child_idx g) k)))))
  end.

(** The three ways the parent reports a wait status. *)
Inductive termination : Type :=
| NormalExit (code : Z)
| Signaled (signal : Z)
| Unknown (raw_status : Z).

(** The [if] / [else if] / [else] over the status in [main]. *)
Definition decode_status (status : Z) : termination :=
  if WIFEXITED status then NormalExit (WEXITSTATUS status)
  else if WIFSIGNALED status then Signaled (WTERMSIG status)
  else Unknown status.

(** The line printed in each of the three branches. *)
Definition report (i : Z) (t : termination) (k : proc) : proc :=
  match t with
  | NormalExit exit_code =>
      Printf "[parent] Child #%d exited normally with code %d\n"
        [PInt i; PInt exit_code] k
  | Signaled signal_num =>
      Printf "[parent] Child #%d was killed by signal %d\n"
        [PInt i; PInt signal_num] k
  | Unknown status =>
      Printf "[parent] Child #%d terminated with status 0x%x\n"
        [PInt i; PInt status] k
  end.

(** [for (int i = lo; i <= hi; ++i) body], then [k]; a [continue] in the
    body is the code that follows the body. *)
Fixpoint for_loop (n : nat) (i : Z) (body : Z -> proc -> proc) (k : proc) : proc :=
  match n with
  | O => k
  | S n' => body i (for_loop n' (i + 1) body k)
  end.

Definition for_range (lo hi : Z) (body : Z -> proc -> proc) (k : proc) : proc :=
  for_loop (Z.to_nat (hi + 1 - lo)) lo body k.

Definition parg_of (s : option string) : parg :=
  match s with
  | Some t => PStr t
  | None => PNull
  end.

(** The strings of a [char *] array up to its first null pointer. *)
Fixpoint until_null (l : list (option string)) : list string :=
  match l with
  | Some s :: r => s :: until_null r
  | _ => []
  end.

(** The array [args] built for child [i]; [argv[0]] is a null pointer when
    [argc] is 0. *)
Definition child_args (argv : list string) (i : Z) : list (option string) :=
  let idarg := snprintf 16 ("--id=" ++ fmt_d i) in
  [nth_error argv 0; Some "--child"; Some idarg].

(** The branch [pid == 0] after [fork]: the new process. *)
Definition fork_child (argv : list string) (i : Z) (k : proc) : proc :=
  Getpid (fun pid =>
  Getppid (fun ppid =>
  Printf "[child #%d] I'm the child! My PID: %d, Parent PID: %d\n"
    [PInt i; PInt pid; PInt ppid]
  (let args := child_args argv i in
   Printf "[child #%d] Executing: %s %s %s\n"
     (PInt i :: map parg_of args)
   (Execvp (nth 0 args None) (until_null args)
   (Perror "[child] execvp failed"
   (Exit_ 127 k)))))).

(** One round of the Unix loop. *)
Definition posix_round (argv : list string) (i : Z) (k : proc) : proc :=
  Printf "\n[parent] Creating child process #%d...\n" [PInt i]
  (Fork (fun pid =>
    if pid <? 0 then
      Perror "[parent] fork failed" k
    else if pid =? 0 then
      fork_child argv i k
    else
      Printf "[parent] Successfully created child #%d (pid=%d)\n"
        [PInt i; PInt pid]
      (Printf "[parent] Waiting for child #%d to finish...\n" [PInt i]
      (Waitpid pid 0 0 (fun status =>
       report i (decode_status status) k))))).

Definition MAX_PATH : Z := 260.
Definition INFINITE : Z := 4294967295.

(** The command line ["%s" --child --id=%d] for child [i]. *)
Definition child_cmd (self : string) (i : Z) : string :=
  snprintf 512
    (String "034" (self ++ String "034" (" --child --id=" ++ fmt_d i))).

(** One round of the Windows loop.  The structures [si] and [pi] are
    locals of the round: zeroed, given to [CreateProcessA], and [pi] read
    after it succeeded. *)
Definition win32_round (self : string) (i : Z) (k : proc) : proc :=
  Printf "\n[parent] Creating child process #%d...\n" [PInt i]
  (let cmd := child_cmd self i in
   Printf "[parent] Command: %s\n" [PStr cmd]
   (CreateProcessA cmd false 0 (fun ok =>
      match ok with
      | None =>
          GetLastError (fun e =>
          Printf "[parent] CreateProcess failed (error code: %lu)\n" [PInt e] k)
      | Some pi =>
          Printf "[parent] Successfully spawned child #%d (pid=%lu)\n"
            [PInt i; PInt (dwProcessId pi)]
          (Printf "[parent] Waiting for child #%d to finish...\n" [PInt i]
          (WaitForSingleObject (hProcess pi) INFINITE
          (GetExitCodeProcess (hProcess pi) 0 (fun ec =>
           Printf "[parent] Child #%d exited with code %lu\n" [PInt i; PInt ec]
           (CloseHandle (hThread pi)
           (CloseHandle (hProcess pi) k))))))
      end))).

(** The end of [main] in the parent. *)
Definition parent_end : proc :=
  Printf "\n[parent] All child processes completed successfully!\n" []
  (Printf "[parent] Parent process terminating...\n" []
  (Return 0)).

(** [main] from the message that starts the parent on. *)
Definition parent (pf : platform) (argv : list string) : proc :=
  Printf "[parent] starting. (this is the terminal)\n" []
  match pf with
  | Win32 =>
      GetModuleFileNameA MAX_PATH (fun self =>
      Printf "[parent] My executable path: %s\n" [PStr self]
      (for_range 1 2 (win32_round self) parent_end))
  | Posix =>
      Getpid (fun pid =>
      Printf "[parent] My PID: %d\n" [PInt pid]
      (for_range 1 2 (posix_round argv) parent_end))
  end.

Definition main (pf : platform) (argv : list string) : proc :=
  let g := parse_args argv initial_globals in
  if negb (is_child g =? 0) then
    child_work pf g (Return 0)
  else
    parent pf argv.

(** The largest index that reaches the exit code unchanged: a Unix exit
    status has eight bits, a Windows exit code thirty-two. *)
Definition max_index (pf : platform) : Z :=
  match pf with
  | Posix => 255
  | Win32 => INT_MAX
  end.

End ProcDemo.

(** ** Reading a trace *)

Module Trace.
Import Proc.

(** The values [f] picks out of a list, in order. *)
Fixpoint pick {A B : Type} (f : A -> option B) (l : list A) : list B :=
  match l with
  | [] => []
  | a :: r =>
      match f a with
      | Some b => b :: pick f r
      | None => pick f r
      end
  end.

Definition option_list {A : Type} (o : option A) : list A :=
  match o with
  | Some a => [a]
  | None => []
  end.

(** An attempt to create a process. *)
Definition is_spawn (ev : event) : bool :=
  match ev with
  | EvFork _ => true
  | EvCreateProcessA _ _ _ _ => true
  | _ => false
  end.

(** What the parent waits on after a successful attempt: the pid that
    [fork] returned, the process handle that [CreateProcessA] stored. *)
Definition spawn_handle (ev : event) : option Z :=
  match ev with
  | EvFork ret => if 0 <? ret then Some ret else None
  | EvCreateProcessA _ _ _ (Some pi) => Some (hProcess pi)
  | _ => None
  end.

(** A wait that has returned, and what it waited on. *)
Definition wait_target (ev : event) : option Z :=
  match ev with
  | EvWaitpid pid _ _ _ => Some pid
  | EvWaitForSingleObject h _ => Some h
  | _ => None
  end.

(** The line that opens the round of child [i]. *)
Definition announced (ev : event) : option Z :=
  match ev with
  | EvPrintf fmt [PInt i] =>
      if String.eqb fmt "\n[parent] Creating child process #%d...\n"
      then Some i else None
  | _ => None
  end.

(** One round of the parent's loop, as seen in the trace: the round of
    child [i] is opened, one attempt to create a process is made, and the
    only wait is the one on the process created, if one was. *)
Definition round_of (i : Z) (evs : list event) : Prop :=
  exists a s b,
    evs = (a ++ s :: b)%list /\
    is_spawn s = true /\
    filter is_spawn a = [] /\ filter is_spawn b = [] /\
    pick announced a = [i] /\ pick announced b = [] /\
    pick wait_target a = [] /\
    pick wait_target b = option_list (spawn_handle s).

(** Events that are no part of a round. *)
Definition quiet (evs : list event) : Prop :=
  filter is_spawn evs = [] /\ pick announced evs = [] /\
  pick wait_target evs = [].

End Trace.

(** An environment to run the program in: every call succeeds except
    [execvp], and the child that is waited for has exited with the number
    of the round as its code. *)
Definition sample_env : Proc.env := {|
  Proc.getpid_ans := 4242;
  Proc.getppid_ans := 4000;
  Proc.fork_ans := fun tr => Some (Pos.of_nat (4243 + List.length tr));
  Proc.execvp_fails := fun _ => true;
  Proc.waitpid_ans := fun tr =>
    Some (WaitStatus.status_of_exit
            (Z.of_nat (List.length (filter Trace.is_spawn tr))));
  Proc.module_file_name := "C:\demo\proc_demo.exe";
  Proc.create_process_ans := fun tr =>
    Some {| Proc.hProcess := 64; Proc.hThread := 68;
            Proc.dwProcessId := 5000 + Z.of_nat (List.length tr) |};
  Proc.last_error_ans := fun _ => 0;
  Proc.exit_code_ans := fun tr =>
    Some (Z.of_nat (List.length (filter Trace.is_spawn tr)))
|}.

(** An environment in which nothing succeeds: no process can be created,
    no wait returns a status. *)
Definition failing_env : Proc.env := {|
  Proc.getpid_ans := 4242;
  Proc.getppid_ans := 4000;
  Proc.fork_ans := fun _ => None;
  Proc.execvp_fails := fun _ => true;
  Proc.waitpid_ans := fun _ => None;
  Proc.module_file_name := EmptyString;
  Proc.create_process_ans := fun _ => None;
  Proc.last_error_ans := fun _ => 2;
  Proc.exit_code_ans := fun _ => None
|}.

(** An environment in which [execvp] succeeds. *)
Definition exec_env : Proc.env := {|
  Proc.getpid_ans := 4247;
  Proc.getppid_ans := 4242;
  Proc.fork_ans := fun _ => None;
  Proc.execvp_fails := fun _ => false;
  Proc.waitpid_ans := fun _ => None;
  Proc.module_file_name := EmptyString;
  Proc.create_process_ans := fun _ => None;
  Proc.last_error_ans := fun _ => 0;
  Proc.exit_code_ans := fun _ => None
|}.

(** The value text of an [--id=] argument as the specification of the
    command line words it: an unsigned integer, in decimal digits.  Used to
    say what a malformed text is; the program itself never checks it. *)
Fixpoint all_digits (s : string) : bool :=
  match s with
  | EmptyString => true
  | String c r => CStr.isdigit c && all_digits r
  end.

Definition numeric (s : string) : bool :=
  match s with
  | EmptyString => false
  | String _ _ => all_digits s
  end.

(** A text with no number to read: after white space and a sign, no digit
    comes first. *)
Definition no_leading_digit (s : string) : bool :=
  match snd (CStr.skip_sign (CStr.skip_spaces s)) with
  | String c _ => negb (CStr.isdigit c)
  | EmptyString => true
  end.

(** ** The script of a run

    What the parent's trace is made of, round by round, as a function of
    the answers the environment gave. *)

Module Script.
Import CStr WaitStatus Proc ProcDemo.

Definition ev_creating (i : Z) : event :=
  EvPrintf "\n[parent] Creating child process #%d...\n" [PInt i].

(** The event of [report i t]. *)
Definition report_event (i : Z) (t : termination) : event :=
  match t with
  | NormalExit exit_code =>
      EvPrintf "[parent] Child #%d exited normally with code %d\n"
        [PInt i; PInt exit_code]
  | Signaled signal_num =>
      EvPrintf "[parent] Child #%d was killed by signal %d\n"
        [PInt i; PInt signal_num]
  | Unknown status =>
      EvPrintf "[parent] Child #%d terminated with status 0x%x\n"
        [PInt i; PInt status]
  end.

Definition footer : list event :=
  [EvPrintf "\n[parent] All child processes completed successfully!\n" [];
   EvPrintf "[parent] Parent process terminating...\n" []].

Definition posix_header (pid : Z) : list event :=
  [EvPrintf "[parent] starting. (this is the terminal)\n" [];
   EvGetpid pid;
   EvPrintf "[parent] My PID: %d\n" [PInt pid]].

(** Round [i] of the Unix loop when [fork] answered [f] and, after a
    successful [fork], [waitpid] answered [w]. *)
Definition posix_round_events (i : Z) (f : option positive) (w : option Z) :
    list event :=
  match f with
  | None =>
      [ev_creating i; EvFork (-1); EvPerror "[parent] fork failed"]
  | Some p =>
      let pid := Z.pos p in
      let ret := match w with Some _ => pid | None => -1 end in
      let status := match w with Some s => s | None => 0 end in
      [ev_creating i;
       EvFork pid;
       EvPrintf "[parent] Successfully created child #%d (pid=%d)\n"
         [PInt i; PInt pid];
       EvPrintf "[parent] Waiting for child #%d to finish...\n" [PInt i];
       EvWaitpid pid 0 ret status;
       report_event i (decode_status status)]
  end.

(** The processes forked in the two rounds, each with the code that is
    written after the branch [pid == 0]. *)
Definition posix_children (argv : list string) (f1 f2 : option positive) :
    list proc :=
  (match f1 with
   | Some _ => [fork_child argv 1 (posix_round argv 2 parent_end)]
   | None => []
   end ++
   match f2 with
   | Some _ => [fork_child argv 2 parent_end]
   | None => []
   end)%list.

Definition win32_header (self : string) : list event :=
  [EvPrintf "[parent] starting. (this is the terminal)\n" [];
   EvGetModuleFileNameA MAX_PATH self;
   EvPrintf "[parent] My executable path: %s\n" [PStr self]].

(** Round [i] of the Windows loop when [CreateProcessA] answered [c],
    [GetLastError] (after a failure) [err] and [GetExitCodeProcess] (after
    the wait) [x]. *)
Definition win32_round_events (self : string) (i : Z)
    (c : option PROCESS_INFORMATION) (err : Z) (x : option Z) : list event :=
  let cmd := child_cmd self i in
  match c with
  | None =>
      [ev_creating i;
       EvPrintf "[parent] Command: %s\n" [PStr cmd];
       EvCreateProcessA cmd false 0 None;
       EvGetLastError err;
       EvPrintf "[parent] CreateProcess failed (error code: %lu)\n" [PInt err]]
  | Some pi =>
      let ok := match x with Some _ => true | None => false end in
      let ec := match x with Some v => v | None => 0 end in
      [ev_creating i;
       EvPrintf "[parent] Command: %s\n" [PStr cmd];
       EvCreateProcessA cmd false 0 (Some pi);
       EvPrintf "[parent] Successfully spawned child #%d (pid=%lu)\n"
         [PInt i; PInt (dwProcessId pi)];
       EvPrintf "[parent] Waiting for child #%d to finish...\n" [PInt i];
       EvWaitForSingleObject (hProcess pi) INFINITE;
       EvGetExitCodeProcess (hProcess pi) ok ec;
       EvPrintf "[parent] Child #%d exited with code %lu\n" [PInt i; PInt ec];
       EvCloseHandle (hThread pi);
       EvCloseHandle (hProcess pi)]
  end.

(** A pause, in milliseconds. *)
Definition slept (ev : event) : option Z :=
  match ev with
  | EvSleep_s n => Some (1000 * n)
  | EvSleep_ms n => Some n
  | _ => None
  end.

(** A handle that was closed. *)
Definition closed (ev : event) : option Z :=
  match ev with
  | EvCloseHandle h => Some h
  | _ => None
  end.

(** A process that [CreateProcessA] created. *)
Definition created (ev : event) : option PROCESS_INFORMATION :=
  match ev with
  | EvCreateProcessA _ _ _ (Some pi) => Some pi
  | _ => None
  end.

(** The value text of an argument of the form [--id=text]. *)
Definition id_text (a : string) : option string :=
  if prefix "--id=" a then Some (advance 5 a) else None.

(** The resolver said in one step: the flag is set when [--child] is among
    the arguments, the index is read from the last [--id=] argument. *)
Definition resolved (args : list string) : globals :=
  {| is_child := if existsb (String.eqb "--child") args then 1 else 0;
     child_idx := match hd_error (rev (Trace.pick id_text args)) with
                  | Some text => atoi text
                  | None => 0
                  end |}.

(** The command line of child [i] in full. *)
Definition full_cmd (self : string) (i : Z) : string :=
  String "034" (self ++ String "034" (" --child --id=" ++ fmt_d i)).

End Script.

(** ** Facts on the C library model *)

Section CStrFacts.
Import CStr.

Lemma strcmp_refl (s : string) : strcmp s s = 0.
Proof.
  induction s as [|c r IH]; simpl; [reflexivity|].
  now rewrite Ascii.eqb_refl.
Qed.

Lemma code_inj (c1 c2 : ascii) : code c1 = code c2 -> c1 = c2.
Proof.
  unfold code. intros H. apply Nat2Z.inj in H.
  rewrite <- (ascii_nat_embedding c1), <- (ascii_nat_embedding c2).
  now rewrite H.
Qed.

Lemma strcmp_zero (s1 s2 : string) : strcmp s1 s2 = 0 <-> s1 = s2.
Proof.
  split; [|intros ->; apply strcmp_refl].
  revert s2. induction s1 as [|c1 r1 IH]; intros [|c2 r2]; simpl;
    try discriminate; try reflexivity.
  destruct (Ascii.eqb_spec c1 c2) as [->|Hne].
  - intros H. f_equal. now apply IH.
  - intros H. exfalso. apply Hne, code_inj. lia.
Qed.

Lemma code_range (c : ascii) : 0 <= code c < 256.
Proof.
  unfold code. pose proof (nat_ascii_bounded c). lia.
Qed.

Lemma code_digit_char (d : Z) : 0 <= d <= 9 -> code (digit_char d) = 48 + d.
Proof.
  intros H. unfold code, digit_char.
  rewrite nat_ascii_embedding by lia. lia.
Qed.

Lemma isdigit_digit_char (d : Z) : 0 <= d <= 9 -> isdigit (digit_char d) = true.
Proof.
  intros H. unfold isdigit. rewrite code_digit_char by assumption.
  apply andb_true_iff. split; apply Z.leb_le; lia.
Qed.

Lemma digit_val_digit_char (d : Z) : 0 <= d <= 9 -> digit_val (digit_char d) = d.
Proof.
  intros H. unfold digit_val. rewrite code_digit_char by assumption. lia.
Qed.

(** Reading back the digits written by [dec_aux]. *)
Lemma digits_val_dec_aux (fuel : nat) :
  forall n rest, 0 <= n < 10 ^ Z.of_nat (S fuel) ->
    exists k, 0 < k /\
      forall a, digits_val a (dec_aux (S fuel) n rest) = digits_val (a * 10 ^ k + n) rest.
Proof.
  induction fuel as [|f IH]; intros n rest Hn;
    assert (Hd : 0 <= n mod 10 <= 9) by (pose proof (Z.mod_pos_bound n 10); lia).
  - change (10 ^ Z.of_nat 1) with 10 in Hn.
    exists 1. split; [lia|]. intros a. cbn [dec_aux].
    replace (n <? 10) with true by (symmetry; apply Z.ltb_lt; lia).
    cbn [digits_val].
    rewrite isdigit_digit_char, digit_val_digit_char by assumption.
    rewrite Z.mod_small by lia. f_equal.
  - remember (S f) as f' eqn:Ef. cbn [dec_aux].
    destruct (Z.ltb_spec n 10) as [Hlt|Hge].
    + exists 1. split; [lia|]. intros a. cbn [digits_val].
      rewrite isdigit_digit_char, digit_val_digit_char by assumption.
      rewrite Z.mod_small by lia. f_equal.
    + subst f'.
      destruct (IH (n / 10) (String (digit_char (n mod 10)) rest)) as (k & Hk & E).
      { split; [apply Z.div_pos; lia|].
        apply Z.div_lt_upper_bound; [lia|].
        rewrite (Nat2Z.inj_succ (S f)), Z.pow_succ_r in Hn by lia. lia. }
      exists (k + 1). split; [lia|]. intros a. rewrite E. cbn [digits_val].
      rewrite isdigit_digit_char, digit_val_digit_char by assumption.
      f_equal. rewrite Z.pow_add_r by lia.
      pose proof (Z.div_mod n 10). lia.
Qed.

Lemma dec_fuel (n : Z) : 0 <= n -> 0 <= n < 10 ^ Z.of_nat (S (Z.to_nat (Z.log2 n))).
Proof.
  intros Hn. split; [assumption|].
  rewrite Nat2Z.inj_succ, Z2Nat.id by apply Z.log2_nonneg.
  destruct (Z.eq_dec n 0) as [->|Hne].
  - simpl. lia.
  - pose proof (Z.log2_spec n ltac:(lia)) as [_ Hlt].
    eapply Z.lt_le_trans; [exact Hlt|].
    apply Z.pow_le_mono_l. pose proof (Z.log2_nonneg n). lia.
Qed.

Lemma digits_val_dec (n : Z) : 0 <= n -> digits_val 0 (dec n) = n.
Proof.
  intros Hn. unfold dec.
  destruct (digits_val_dec_aux _ n EmptyString (dec_fuel n Hn)) as (k & _ & E).
  rewrite E. reflexivity.
Qed.

(** The text written by [dec] starts with a digit. *)
Lemma dec_aux_head (fuel : nat) :
  forall n rest, 0 <= n ->
    exists c r, dec_aux (S fuel) n rest = String c r /\ isdigit c = true.
Proof.
  induction fuel as [|f IH]; intros n rest Hn;
    assert (Hd : 0 <= n mod 10 <= 9) by (pose proof (Z.mod_pos_bound n 10); lia).
  - cbn [dec_aux]. destruct (n <? 10); eexists _, _; split;
      try reflexivity; now apply isdigit_digit_char.
  - remember (S f) as f'. cbn [dec_aux]. destruct (n <? 10).
    + eexists _, _; split; [reflexivity|now apply isdigit_digit_char].
    + subst f'. apply IH. apply Z.div_pos; lia.
Qed.

Lemma dec_head (n : Z) : 0 <= n -> exists c r, dec n = String c r /\ isdigit c = true.
Proof. intros Hn. now apply dec_aux_head. Qed.

Lemma isdigit_not_space (c : ascii) : isdigit c = true -> isspace c = false.
Proof.
  unfold isdigit, isspace. intros H.
  apply andb_true_iff in H as [H1 H2]. apply Z.leb_le in H1, H2.
  apply orb_false_iff. split.
  - apply Z.eqb_neq. lia.
  - apply andb_false_iff. right. apply Z.leb_gt. lia.
Qed.

Lemma isdigit_not_sign (c : ascii) (r : string) :
  isdigit c = true -> skip_sign (String c r) = (false, String c r).
Proof.
  intros H. unfold skip_sign.
  destruct (Ascii.eqb_spec c "-") as [->|Hm]; [discriminate H|].
  destruct (Ascii.eqb_spec c "+") as [->|Hp]; [discriminate H|].
  destruct c as [[] [] [] [] [] [] [] []]; try reflexivity; congruence.
Qed.

Lemma strtol10_dec (n : Z) : 0 <= n -> strtol10 (dec n) = Z.min LONG_MAX n.
Proof.
  intros Hn. unfold strtol10.
  destruct (dec_head n Hn) as (c & r & E & Hc).
  rewrite E. cbn [skip_spaces]. rewrite (isdigit_not_space c Hc).
  rewrite (isdigit_not_sign c r Hc). rewrite <- E.
  now rewrite digits_val_dec.
Qed.

(** [atoi] reads back what [%d] wrote, for every value of type [int]
    that is not negative. *)
Lemma atoi_dec (n : Z) : 0 <= n <= INT_MAX -> atoi (dec n) = n.
Proof.
  intros Hn. unfold atoi. rewrite strtol10_dec by lia.
  unfold INT_MAX in Hn. unfold LONG_MAX, to_int.
  rewrite Z.min_r by lia. rewrite Z.mod_small by lia. lia.
Qed.

Lemma take_all (s : string) : forall n, (String.length s <= n)%nat -> take n s = s.
Proof.
  induction s as [|c r IH]; intros [|n] H; simpl in *; try reflexivity; try lia.
  f_equal. apply IH. lia.
Qed.

(** [dec] writes no more digits than the bound on the number allows. *)
Lemma dec_aux_length (fuel : nat) :
  forall n acc (k : nat), 0 <= n < 10 ^ Z.of_nat (S k) ->
    (String.length (dec_aux (S fuel) n acc) <= S k + String.length acc)%nat.
Proof.
  induction fuel as [|f IH]; intros n acc k Hn.
  - cbn [dec_aux]. destruct (n <? 10); simpl; lia.
  - remember (S f) as f' eqn:Ef. cbn [dec_aux].
    destruct (Z.ltb_spec n 10) as [Hlt|Hge]; [simpl; lia|].
    subst f'. destruct k as [|k].
    + change (10 ^ Z.of_nat 1) with 10 in Hn. lia.
    + etransitivity.
      * apply (IH (n / 10) _ k). split; [apply Z.div_pos; lia|].
        apply Z.div_lt_upper_bound; [lia|].
        rewrite (Nat2Z.inj_succ (S k)), Z.pow_succ_r in Hn by lia. lia.
      * simpl. lia.
Qed.

Lemma dec_length (n : Z) (k : nat) :
  0 <= n < 10 ^ Z.of_nat (S k) -> (String.length (dec n) <= S k)%nat.
Proof.
  intros Hn. unfold dec.
  pose proof (dec_aux_length (Z.to_nat (Z.log2 n)) n EmptyString k Hn) as H.
  cbn [String.length] in H. lia.
Qed.

Lemma strtol10_minus_dec (n : Z) :
  0 <= n -> strtol10 (String "-" (dec n)) = Z.max LONG_MIN (- n).
Proof.
  intros Hn.
  change (strtol10 (String "-" (dec n))) with (Z.max LONG_MIN (- digits_val 0 (dec n))).
  now rewrite digits_val_dec.
Qed.

(** [atoi] reads back what [%d] wrote, for every value of type [int]. *)
Lemma atoi_fmt_d (i : Z) : INT_MIN <= i <= INT_MAX -> atoi (fmt_d i) = i.
Proof.
  unfold INT_MIN, INT_MAX. intros Hi. unfold fmt_d.
  destruct (Z.ltb_spec i 0) as [Hneg|Hpos].
  - unfold atoi. rewrite strtol10_minus_dec by lia.
    unfold LONG_MIN, to_int. rewrite Z.max_r by lia.
    rewrite Z.mod_small by lia. lia.
  - apply atoi_dec. unfold INT_MAX. lia.
Qed.

Lemma digits_val_no_digit (s : string) (a : Z) :
  match s with String c _ => negb (isdigit c) | EmptyString => true end = true ->
  digits_val a s = a.
Proof.
  destruct s as [|c r]; [reflexivity|]. simpl.
  now destruct (isdigit c).
Qed.

(** A text with no leading number reads as zero. *)
Lemma atoi_no_leading_digit (s : string) : no_leading_digit s = true -> atoi s = 0.
Proof.
  unfold no_leading_digit, atoi, strtol10.
  destruct (skip_sign (skip_spaces s)) as [neg r]. cbn [snd]. intros H.
  rewrite (digits_val_no_digit r 0 H). now destruct neg.
Qed.

(** The text of [idarg] is not cut by its 16 bytes for any index of ten
    characters or fewer. *)
Lemma snprintf_id (i : Z) :
  -999999999 <= i <= INT_MAX ->
  ProcDemo.snprintf 16 ("--id=" ++ fmt_d i) = "--id=" ++ fmt_d i.
Proof.
  unfold INT_MAX. intros Hi. unfold ProcDemo.snprintf. apply take_all.
  change (Z.to_nat (16 - 1)) with 15%nat.
  change (String.length ("--id=" ++ fmt_d i)) with (5 + String.length (fmt_d i))%nat.
  unfold fmt_d. destruct (Z.ltb_spec i 0) as [Hneg|Hpos].
  - pose proof (dec_length (- i) 8 ltac:(simpl; lia)). simpl. lia.
  - pose proof (dec_length i 9 ltac:(simpl; lia)). lia.
Qed.

End CStrFacts.

(** ** Facts on the Role Resolver *)

Section Resolver.
Import CStr Proc ProcDemo.

(** An argument [--id=text] is read by the second branch of the loop. *)
Lemma parse_arg_id (g : globals) (text : string) :
  parse_arg g ("--id=" ++ text) =
  {| is_child := is_child g; child_idx := atoi text |}.
Proof. reflexivity. Qed.

Lemma parse_arg_child (g : globals) :
  parse_arg g "--child" = {| is_child := 1; child_idx := child_idx g |}.
Proof. reflexivity. Qed.

Lemma strncmp_prefix (a : string) :
  strncmp a "--id=" 5 = 0 <-> prefix "--id=" a = true.
Proof.
  assert (G : forall (p a : string) (n : nat), n = String.length p ->
             (strncmp a p n = 0 <-> prefix p a = true)).
  { clear a. induction p as [|c p IH]; intros a n ->.
    - simpl. destruct a; simpl; intuition.
    - destruct a as [|c' a]; simpl.
      + split; [lia|discriminate].
      + destruct (Ascii.eqb_spec c' c) as [->|Hne].
        * destruct (ascii_dec c c) as [_|F]; [|contradiction].
          now apply IH.
        * destruct (ascii_dec c c') as [E|_]; [congruence|].
          split; [|discriminate]. intros H. exfalso.
          apply Hne, code_inj. lia. }
  now apply G.
Qed.

(** Role of an argument list: the flag is set by [--child] and by nothing
    else, and never cleared. *)
Lemma fold_is_child_absent (l : list string) :
  forall g, ~ In "--child" l ->
    is_child (fold_left parse_arg l g) = is_child g.
Proof.
  induction l as [|a l IH]; intros g Hn; [reflexivity|].
  cbn [fold_left]. rewrite IH by (intros F; apply Hn; now right).
  unfold parse_arg.
  destruct (Z.eqb_spec (strcmp a "--child") 0) as [E|_].
  - apply strcmp_zero in E. exfalso. apply Hn. now left.
  - now destruct (strncmp a "--id=" 5 =? 0).
Qed.

Lemma fold_is_child_set (l : list string) :
  forall g, is_child g = 1 -> is_child (fold_left parse_arg l g) = 1.
Proof.
  induction l as [|a l IH]; intros g Hg; [assumption|].
  cbn [fold_left]. apply IH. unfold parse_arg.
  destruct (strcmp a "--child" =? 0); [reflexivity|].
  now destruct (strncmp a "--id=" 5 =? 0).
Qed.

Lemma fold_is_child_present (l : list string) :
  forall g, In "--child" l -> is_child (fold_left parse_arg l g) = 1.
Proof.
  induction l as [|a l IH]; intros g Hin; [contradiction|].
  cbn [fold_left]. destruct Hin as [->|Hin].
  - now apply fold_is_child_set.
  - now apply IH.
Qed.

(** Index of an argument list: written by the [--id=] arguments only. *)
Lemma fold_child_idx_no_id (l : list string) :
  forall g, (forall a, In a l -> prefix "--id=" a = false) ->
    child_idx (fold_left parse_arg l g) = child_idx g.
Proof.
  induction l as [|a l IH]; intros g Hn; [reflexivity|].
  cbn [fold_left]. rewrite IH by (intros b Hb; apply Hn; now right).
  unfold parse_arg. destruct (strcmp a "--child" =? 0); [reflexivity|].
  destruct (Z.eqb_spec (strncmp a "--id=" 5) 0) as [E|_]; [|reflexivity].
  apply strncmp_prefix in E. rewrite (Hn a) in E by now left. discriminate.
Qed.

(** The last [--id=] argument decides the index. *)
Lemma fold_child_idx_last (pre post : list string) (text : string) (g : globals) :
  (forall a, In a post -> prefix "--id=" a = false) ->
  child_idx (fold_left parse_arg (pre ++ ("--id=" ++ text)%string :: post)%list g) =
  atoi text.
Proof.
  intros Hn. rewrite fold_left_app. cbn [fold_left].
  rewrite fold_child_idx_no_id by assumption.
  now rewrite parse_arg_id.
Qed.

(** Without [--child] among the arguments [main] runs the parent. *)
Lemma main_without_child_flag (pf : platform) (argv : list string) :
  ~ In "--child" (skipn 1 argv) -> main pf argv = parent pf argv.
Proof.
  intros Hn. unfold main, parse_args. now rewrite fold_is_child_absent.
Qed.

End Resolver.

(** ** The Role Resolver *)

Section ResolverClaims.
Import CStr Proc ProcDemo.

Lemma globals_eq (g : globals) (c i : Z) :
  is_child g = c -> child_idx g = i -> g = {| is_child := c; child_idx := i |}.
Proof. destruct g; simpl; now intros -> ->. Qed.

(** The parent's code reads [argv[0]] and nothing else of the argument
    list. *)
Lemma parent_argv0 (pf : platform) (argv1 argv2 : list string) :
  nth_error argv1 0 = nth_error argv2 0 -> parent pf argv1 = parent pf argv2.
Proof.
  intros H. destruct pf; [|reflexivity].
  unfold parent, for_range, posix_round, fork_child, child_args. cbn [for_loop Z.to_nat].
  now rewrite H.
Qed.

(** C2, as the code has it.  When the value text of the last [--id=]
    argument holds no number to read (after optional white space and an
    optional sign no decimal digit comes first), the resolver yields
    index 0.  The resolver is a total function: it yields a value on
    every argument list. *)
Theorem id_without_leading_digit_is_zero
    (argv pre post : list string) (text : string) :
  skipn 1 argv = (pre ++ ("--id=" ++ text)%string :: post)%list ->
  (forall a, In a post -> prefix "--id=" a = false) ->
  no_leading_digit text = true ->
  child_idx (parse_args argv initial_globals) = 0.
Proof.
  intros Hargs Hpost Htext. unfold parse_args. rewrite Hargs.
  rewrite fold_child_idx_last by assumption.
  now apply atoi_no_leading_digit.
Qed.

Lemma id_without_leading_digit_is_zero_witness :
  child_idx (parse_args ["./proc_demo"; "--child"; "--id=abc"] initial_globals) = 0.
Proof.
  apply (id_without_leading_digit_is_zero
           ["./proc_demo"; "--child"; "--id=abc"] ["--child"] [] "abc").
  - reflexivity.
  - intros a [].
  - reflexivity.
Defined.

(** C2, as stated, fails: the value text [12abc] is not a number, and the
    resolver yields the value of its leading digits, 12, not 0. *)
Lemma id_with_leading_digits_not_zero :
  numeric "12abc" = false /\
  child_idx (parse_args ["./proc_demo"; "--child"; "--id=12abc"] initial_globals) = 12 /\
  child_idx (parse_args ["./proc_demo"; "--child"; "--id=12abc"] initial_globals) <> 0.
Proof. repeat split. discriminate. Qed.

(** C3.  When [--child] is not among the arguments, the role is Parent
    whatever [--id=] arguments there are: the flag stays 0 and [main] runs
    the parent's code.  The empty argument list is one such list. *)
Theorem parent_role_without_child_flag (pf : platform) (argv : list string) :
  ~ In "--child" (skipn 1 argv) ->
  is_child (parse_args argv initial_globals) = 0 /\
  main pf argv = parent pf argv.
Proof.
  intros Hn.
  assert (E : is_child (parse_args argv initial_globals) = 0)
    by (unfold parse_args; now rewrite fold_is_child_absent).
  split; [exact E|]. unfold main. now rewrite E.
Qed.

Lemma parent_role_without_child_flag_witness :
  is_child (parse_args ["./proc_demo"; "--id=7"] initial_globals) = 0 /\
  main Posix ["./proc_demo"; "--id=7"] = parent Posix ["./proc_demo"; "--id=7"].
Proof.
  apply (parent_role_without_child_flag Posix ["./proc_demo"; "--id=7"]).
  simpl. intros [H|[]]. discriminate H.
Defined.

(** The program started with no argument at all. *)
Lemma parent_role_no_arguments (pf : platform) (prog : string) :
  main pf [] = parent pf [] /\ main pf [prog] = parent pf [prog].
Proof. split; reflexivity. Qed.

(** C7.  With [--child] among the arguments and no [--id=] argument, the
    resolver yields the child role with index 0, and [main] runs the child
    worker with that index: nothing is checked, nothing is reported, and
    the worker ends the process with exit code 0. *)
Theorem child_without_id_has_index_zero
    (pf : platform) (e : env) (argv : list string) :
  In "--child" (skipn 1 argv) ->
  (forall a, In a (skipn 1 argv) -> prefix "--id=" a = false) ->
  parse_args argv initial_globals = {| is_child := 1; child_idx := 0 |} /\
  main pf argv = child_work pf {| is_child := 1; child_idx := 0 |} (Return 0) /\
  exit_code (final (start e (main pf argv))) = Some 0.
Proof.
  intros Hc Hid.
  assert (E : parse_args argv initial_globals = {| is_child := 1; child_idx := 0 |}).
  { apply globals_eq; unfold parse_args.
    - now apply fold_is_child_present.
    - now rewrite fold_child_idx_no_id. }
  split; [exact E|]. unfold main. rewrite E. cbn [is_child Z.eqb negb].
  split; [reflexivity|]. now destruct pf.
Qed.

Lemma child_without_id_has_index_zero_witness :
  parse_args ["./proc_demo"; "--child"] initial_globals =
    {| is_child := 1; child_idx := 0 |} /\
  main Posix ["./proc_demo"; "--child"] =
    child_work Posix {| is_child := 1; child_idx := 0 |} (Return 0) /\
  exit_code (final (start sample_env (main Posix ["./proc_demo"; "--child"]))) = Some 0.
Proof.
  apply (child_without_id_has_index_zero Posix sample_env ["./proc_demo"; "--child"]).
  - simpl. now left.
  - simpl. intros a [<-|[]]. reflexivity.
Defined.

(** C9, as the code has it.  The stored index is read in the child role
    only: in the parent role [main] runs the same code whatever the
    arguments after [argv[0]] are, so whatever index they stored; and the
    stored index is 0 when no [--id=] argument was given. *)
Theorem index_unused_in_parent_role (pf : platform) (argv1 argv2 : list string) :
  is_child (parse_args argv1 initial_globals) = 0 ->
  is_child (parse_args argv2 initial_globals) = 0 ->
  nth_error argv1 0 = nth_error argv2 0 ->
  main pf argv1 = main pf argv2 /\
  ((forall a, In a (skipn 1 argv1) -> prefix "--id=" a = false) ->
   child_idx (parse_args argv1 initial_globals) = 0).
Proof.
  intros H1 H2 H0. split.
  - unfold main. rewrite H1, H2. cbn [Z.eqb negb]. now apply parent_argv0.
  - intros Hid. unfold parse_args. now rewrite fold_child_idx_no_id.
Qed.

Lemma index_unused_in_parent_role_witness :
  main Posix ["./proc_demo"; "-v"] = main Posix ["./proc_demo"; "--id=5"] /\
  ((forall a, In a (skipn 1 ["./proc_demo"; "-v"]) -> prefix "--id=" a = false) ->
   child_idx (parse_args ["./proc_demo"; "-v"] initial_globals) = 0).
Proof.
  apply (index_unused_in_parent_role Posix ["./proc_demo"; "-v"] ["./proc_demo"; "--id=5"]);
    reflexivity.
Defined.

(** C9, as stated, fails: with [--id=5] and no [--child] the role is
    Parent and the stored index is 5, not the zero it started as. *)
Lemma parent_role_keeps_stored_index :
  parse_args ["./proc_demo"; "--id=5"] initial_globals =
    {| is_child := 0; child_idx := 5 |} /\
  child_idx (parse_args ["./proc_demo"; "--id=5"] initial_globals) <> 0.
Proof. split; [reflexivity|discriminate]. Qed.

(** C10.  The argument list the parent builds for child [i] (the program
    name, [--child], [--id=i]) is resolved to the child role with index
    [i], and [main] on it runs the child worker with that index: for the
    indices 1 and 2 of the loop, and for every [int] whose text fits the
    16 bytes of [idarg]. *)
Theorem resolver_reads_back_child_args
    (pf : platform) (prog : string) (rest : list string) (i : Z) :
  -999999999 <= i <= INT_MAX ->
  until_null (child_args (prog :: rest) i) =
    [prog; "--child"; ("--id=" ++ fmt_d i)%string] /\
  parse_args (until_null (child_args (prog :: rest) i)) initial_globals =
    {| is_child := 1; child_idx := i |} /\
  main pf (until_null (child_args (prog :: rest) i)) =
    child_work pf {| is_child := 1; child_idx := i |} (Return 0).
Proof.
  intros Hi.
  assert (E : until_null (child_args (prog :: rest) i) =
              [prog; "--child"; ("--id=" ++ fmt_d i)%string]).
  { unfold child_args. rewrite snprintf_id by assumption. reflexivity. }
  assert (P : parse_args [prog; "--child"; ("--id=" ++ fmt_d i)%string] initial_globals =
              {| is_child := 1; child_idx := i |}).
  { unfold parse_args. cbn [skipn fold_left].
    rewrite parse_arg_child, parse_arg_id. cbn [is_child].
    rewrite atoi_fmt_d; [reflexivity|]. unfold INT_MIN. lia. }
  rewrite E. split; [reflexivity|]. split; [exact P|].
  unfold main. now rewrite P.
Qed.

Lemma resolver_reads_back_child_args_witness :
  until_null (child_args ["./proc_demo"] 2) = ["./proc_demo"; "--child"; "--id=2"] /\
  parse_args (until_null (child_args ["./proc_demo"] 2)) initial_globals =
    {| is_child := 1; child_idx := 2 |} /\
  main Posix (until_null (child_args ["./proc_demo"] 2)) =
    child_work Posix {| is_child := 1; child_idx := 2 |} (Return 0).
Proof.
  apply (resolver_reads_back_child_args Posix "./proc_demo" [] 2).
  unfold INT_MAX. lia.
Defined.

End ResolverClaims.

(** ** Facts on wait statuses *)

Section WaitStatusFacts.
Import WaitStatus ProcDemo.

Lemma land_127_range (s : Z) : 0 <= Z.land s 127 <= 127.
Proof.
  change 127 with (Z.ones 7). rewrite Z.land_ones by lia.
  pose proof (Z.mod_pos_bound s (2 ^ 7) ltac:(lia)). change (Z.ones 7) with (2 ^ 7 - 1). lia.
Qed.

(** Every claim on the low seven bits can be checked on the 128 values
    they take. *)
Lemma below_128 (P : Z -> bool) :
  forallb P (map Z.of_nat (seq 0 128)) = true ->
  forall t, 0 <= t <= 127 -> P t = true.
Proof.
  intros H t Ht. rewrite forallb_forall in H. apply H.
  apply in_map_iff. exists (Z.to_nat t). split; [lia|].
  apply in_seq. lia.
Qed.

Lemma below_256 (P : Z -> bool) :
  forallb P (map Z.of_nat (seq 0 256)) = true ->
  forall t, 0 <= t <= 255 -> P t = true.
Proof.
  intros H t Ht. rewrite forallb_forall in H. apply H.
  apply in_map_iff. exists (Z.to_nat t). split; [lia|].
  apply in_seq. lia.
Qed.

(** No status is both a normal exit and a death by signal. *)
Lemma exited_not_signaled (status : Z) :
  WIFEXITED status = true -> WIFSIGNALED status = false.
Proof.
  unfold WIFEXITED, WIFSIGNALED, WTERMSIG.
  pose proof (land_127_range status) as Hr.
  generalize dependent (Z.land status 127). intros t Ht E.
  apply Z.eqb_eq in E. subst t. reflexivity.
Qed.

Lemma decode_exit (K : Z) :
  0 <= K <= 255 -> decode_status (status_of_exit K) = NormalExit K.
Proof.
  intros HK.
  pose proof (below_256
    (fun k => match decode_status (status_of_exit k) with
              | NormalExit c => c =? k
              | _ => false
              end) ltac:(vm_compute; reflexivity) K HK) as H.
  cbv beta in H. destruct (decode_status (status_of_exit K)); try discriminate.
  apply Z.eqb_eq in H. now subst.
Qed.

Lemma decode_signal (S : Z) (core : bool) :
  1 <= S <= 126 -> decode_status (status_of_signal S core) = Signaled S.
Proof.
  intros HS.
  pose proof (below_128
    (fun s => (s =? 0) || (s =? 127) ||
              match decode_status (status_of_signal s core) with
              | Signaled c => c =? s
              | _ => false
              end) ltac:(destruct core; vm_compute; reflexivity) S ltac:(lia)) as H.
  cbv beta in H.
  replace (S =? 0) with false in H by (symmetry; apply Z.eqb_neq; lia).
  replace (S =? 127) with false in H by (symmetry; apply Z.eqb_neq; lia).
  cbn [orb] in H.
  destruct (decode_status (status_of_signal S core)); try discriminate.
  apply Z.eqb_eq in H. now subst.
Qed.

(** What the parent decodes after [_exit(code)] is the exit code [code]
    is cut down to: its low eight bits. *)
Lemma decode_exit_code (code : Z) :
  decode_status (status_of_exit code) = NormalExit (Z.land code 255) /\
  Proc.exit_code (Proc.Exited code) = Some (Z.land code 255).
Proof.
  split; [|reflexivity].
  assert (H : 0 <= Z.land code 255 <= 255).
  { change 255 with (Z.ones 8) at 1 2. rewrite Z.land_ones by lia.
    pose proof (Z.mod_pos_bound code (2 ^ 8) ltac:(lia)).
    change (2 ^ 8) with 256 in *. lia. }
  rewrite <- (decode_exit _ H) at 1. unfold status_of_exit. f_equal. f_equal.
  change 255 with (Z.ones 8). rewrite !Z.land_ones by lia.
  now rewrite Z.mod_mod by lia.
Qed.

End WaitStatusFacts.

(** ** Facts on the runs of the program *)

Section Runs.
Import CStr Proc ProcDemo Trace.

Lemma pick_app {A B : Type} (f : A -> option B) (l1 l2 : list A) :
  pick f (l1 ++ l2)%list = (pick f l1 ++ pick f l2)%list.
Proof.
  induction l1 as [|a l1 IH]; [reflexivity|].
  simpl. destruct (f a); simpl; now rewrite IH.
Qed.

(** The child worker ends the process, with the index as its code. *)
Lemma run_child_work (pf : platform) (e : env) (g : globals) (k : proc)
    (tr : list event) (ch : list proc) :
  final (run e (child_work pf g k) tr ch) =
  match pf with
  | Posix => Exited (child_idx g)
  | Win32 => ExitedProcess (to_uint (child_idx g))
  end.
Proof. now destruct pf. Qed.

Lemma run_parent_end (e : env) (tr : list event) (ch : list proc) :
  exists ftr,
    run e parent_end tr ch =
      {| trace := (tr ++ ftr)%list; spawned := ch; final := Returned 0 |} /\
    quiet ftr.
Proof.
  eexists [_; _]. split.
  - unfold parent_end. cbn [run]. rewrite <- app_assoc. reflexivity.
  - repeat split.
Qed.

(** The new process created by [fork], when its [execvp] fails. *)
Lemma run_fork_child (e : env) (argv : list string) (i : Z) (k : proc)
    (tr : list event) (ch : list proc) :
  (forall h, execvp_fails e h = true) ->
  exists pre file args,
    run e (fork_child argv i k) tr ch =
      {| trace := (tr ++ pre ++
                     [EvExecvp file args true; EvPerror "[child] execvp failed"])%list;
         spawned := ch; final := Exited 127 |}.
Proof.
  intros Hfail. eexists [_; _; _; _], _, _.
  unfold fork_child. cbn [run]. rewrite Hfail. cbn [run].
  repeat rewrite <- app_assoc. reflexivity.
Qed.

(** One round of the Unix loop, in the parent. *)
Lemma run_posix_round (e : env) (argv : list string) (i : Z) (k : proc)
    (tr : list event) (ch : list proc) :
  exists evs ch',
    run e (posix_round argv i k) tr ch = run e k (tr ++ evs)%list ch' /\
    round_of i evs /\
    (ch' = ch \/ ch' = (ch ++ [fork_child argv i k])%list).
Proof.
  remember (run e (posix_round argv i k) tr ch) as r eqn:Hr.
  unfold posix_round in Hr. cbn [run] in Hr.
  destruct (fork_ans e _) as [pid|] in Hr; cbn [fork_ret] in Hr.
  - change (Z.pos pid <? 0) with false in Hr.
    change (Z.pos pid =? 0) with false in Hr.
    cbn [run] in Hr.
    destruct (waitpid_ans e _) as [s|] in Hr;
      destruct (decode_status _) in Hr; cbn [report run] in Hr;
      repeat rewrite <- app_assoc in Hr; cbn [app] in Hr;
      (eexists; eexists; split; [exact Hr|]; split; [|now right]);
      (exists [EvPrintf "\n[parent] Creating child process #%d...\n" [PInt i]]);
      eexists; eexists; repeat split.
  - change (-1 <? 0) with true in Hr. cbn [run] in Hr.
    repeat rewrite <- app_assoc in Hr; cbn [app] in Hr.
    eexists; eexists; split; [exact Hr|]; split; [|now left].
    exists [EvPrintf "\n[parent] Creating child process #%d...\n" [PInt i]].
    eexists; eexists; repeat split.
Qed.

(** One round of the Windows loop. *)
Lemma run_win32_round (e : env) (self : string) (i : Z) (k : proc)
    (tr : list event) (ch : list proc) :
  exists evs,
    run e (win32_round self i k) tr ch = run e k (tr ++ evs)%list ch /\
    round_of i evs.
Proof.
  remember (run e (win32_round self i k) tr ch) as r eqn:Hr.
  unfold win32_round in Hr. cbn [run] in Hr.
  destruct (create_process_ans e _) as [pi|] in Hr; cbn [run] in Hr.
  - destruct (exit_code_ans e _) as [c|] in Hr; cbn [run] in Hr;
      repeat rewrite <- app_assoc in Hr; cbn [app] in Hr;
      (eexists; split; [exact Hr|]);
      (exists [EvPrintf "\n[parent] Creating child process #%d...\n" [PInt i];
               EvPrintf "[parent] Command: %s\n" [PStr (child_cmd self i)]]);
      eexists; eexists; repeat split.
  - repeat rewrite <- app_assoc in Hr; cbn [app] in Hr.
    eexists; split; [exact Hr|].
    exists [EvPrintf "\n[parent] Creating child process #%d...\n" [PInt i];
            EvPrintf "[parent] Command: %s\n" [PStr (child_cmd self i)]].
    eexists; eexists; repeat split.
Qed.

End Runs.

(** ** The parent as a whole *)

Section Orchestrator.
Import CStr Proc ProcDemo Trace.

Lemma for_range_1_2 (body : Z -> proc -> proc) (k : proc) :
  for_range 1 2 body k = body 1 (body 2 k).
Proof. reflexivity. Qed.

(** Running the next round of the goal, by the lemma on that round. *)
Ltac posix_round_step e argv i evs ch' R C :=
  match goal with
  | |- context [run e (posix_round argv i ?k) ?tr ?ch] =>
      let E := fresh "E" in
      destruct (run_posix_round e argv i k tr ch) as (evs & ch' & E & R & C);
      rewrite E; clear E
  end.

Ltac win32_round_step e i evs R :=
  match goal with
  | |- context [run e (win32_round ?self i ?k) ?tr ?ch] =>
      let E := fresh "E" in
      destruct (run_win32_round e self i k tr ch) as (evs & E & R);
      rewrite E; clear E
  end.

Ltac parent_end_step e ftr Q :=
  match goal with
  | |- context [run e parent_end ?tr ?ch] =>
      let E := fresh "E" in
      destruct (run_parent_end e tr ch) as (ftr & E & Q);
      rewrite E; clear E; cbn [trace final spawned]
  end.

(** A run of the parent is a quiet start, the round of child 1, the round
    of child 2 and a quiet end; it returns 0 from [main].  The processes
    it forks start in the branch [pid == 0] of the loop. *)
Lemma run_parent (pf : platform) (e : env) (argv : list string) :
  exists hdr evs1 evs2 ftr,
    trace (start e (parent pf argv)) = (hdr ++ evs1 ++ evs2 ++ ftr)%list /\
    final (start e (parent pf argv)) = Returned 0 /\
    quiet hdr /\ round_of 1 evs1 /\ round_of 2 evs2 /\ quiet ftr /\
    (forall c, In c (spawned (start e (parent pf argv))) ->
       exists i k, 1 <= i <= 2 /\ c = fork_child argv i k).
Proof.
  unfold start, parent. destruct pf; cbn [run]; rewrite for_range_1_2.
  - posix_round_step e argv 1 ipattern:(evs1) ipattern:(ch1) ipattern:(R1) ipattern:(C1).
    posix_round_step e argv 2 ipattern:(evs2) ipattern:(ch2) ipattern:(R2) ipattern:(C2).
    parent_end_step e ipattern:(ftr) ipattern:(Q3).
    eexists [_; _; _], evs1, evs2, ftr.
    split; [repeat rewrite <- app_assoc; reflexivity|].
    split; [reflexivity|].
    split; [repeat split|].
    repeat (split; [assumption|]).
    intros c Hc.
    destruct C1 as [->| ->], C2 as [->| ->]; cbn [app In] in Hc;
      repeat (destruct Hc as [<-|Hc]; [eexists _, _; split; [|reflexivity]; lia|]);
      contradiction.
  - win32_round_step e 1 ipattern:(evs1) ipattern:(R1).
    win32_round_step e 2 ipattern:(evs2) ipattern:(R2).
    parent_end_step e ipattern:(ftr) ipattern:(Q3).
    eexists [_; _; _], evs1, evs2, ftr.
    split; [repeat rewrite <- app_assoc; reflexivity|].
    split; [reflexivity|].
    split; [repeat split|].
    repeat (split; [assumption|]).
    intros c [].
Qed.

(** The two rounds put together: the two attempts and what lies before,
    between and after them. *)
Lemma two_rounds (hdr evs1 evs2 ftr : list event) :
  quiet hdr -> round_of 1 evs1 -> round_of 2 evs2 -> quiet ftr ->
  exists pre s1 mid s2 post,
    (hdr ++ evs1 ++ evs2 ++ ftr = pre ++ s1 :: mid ++ s2 :: post)%list /\
    is_spawn s1 = true /\ is_spawn s2 = true /\
    filter is_spawn pre = [] /\ filter is_spawn mid = [] /\
    filter is_spawn post = [] /\
    pick announced pre = [1] /\ pick announced mid = [2] /\
    pick announced post = [] /\
    pick wait_target pre = [] /\
    pick wait_target mid = option_list (spawn_handle s1) /\
    pick wait_target post = option_list (spawn_handle s2).
Proof.
  intros (Hs & Ha & Hw) (a1 & s1 & b1 & -> & S1 & Fa1 & Fb1 & Aa1 & Ab1 & Wa1 & Wb1)
         (a2 & s2 & b2 & -> & S2 & Fa2 & Fb2 & Aa2 & Ab2 & Wa2 & Wb2)
         (Fs & Fa & Fw).
  exists (hdr ++ a1)%list, s1, (b1 ++ a2)%list, s2, (b2 ++ ftr)%list.
  rewrite !filter_app, !pick_app.
  rewrite Hs, Ha, Hw, Fa1, Fb1, Aa1, Ab1, Wa1, Wb1, Fa2, Fb2, Aa2, Ab2, Wa2, Wb2,
    Fs, Fa, Fw.
  rewrite !app_nil_r.
  repeat split; try assumption.
  repeat (rewrite <- app_assoc || rewrite <- app_comm_cons). reflexivity.
Qed.

End Orchestrator.

(** ** The child worker, the orchestrator and the status report *)

Section ProcessClaims.
Import CStr WaitStatus Proc ProcDemo Trace.

Lemma land_255_small (n : Z) : 0 <= n <= 255 -> Z.land n 255 = n.
Proof.
  intros H. change 255 with (Z.ones 8). rewrite Z.land_ones by lia.
  apply Z.mod_small. change (2 ^ 8) with 256. lia.
Qed.

(** The value the child worker hands to [_exit] or [ExitProcess] is the
    index, for every index of type [int] that is not negative. *)
Lemma child_work_gets_index
    (pf : platform) (e : env) (argv pre post : list string) (N : Z) :
  0 <= N <= INT_MAX ->
  skipn 1 argv = (pre ++ ("--id=" ++ fmt_d N)%string :: post)%list ->
  In "--child" (skipn 1 argv) ->
  (forall a, In a post -> prefix "--id=" a = false) ->
  final (start e (main pf argv)) =
  match pf with Posix => Exited N | Win32 => ExitedProcess N end.
Proof.
  intros HN Hargs Hc Hpost.
  assert (E : parse_args argv initial_globals = {| is_child := 1; child_idx := N |}).
  { apply globals_eq; unfold parse_args.
    - now apply fold_is_child_present.
    - rewrite Hargs, fold_child_idx_last by assumption.
      apply atoi_fmt_d. unfold INT_MIN. lia. }
  unfold main, start. rewrite E. cbn [is_child Z.eqb negb].
  rewrite run_child_work. cbn [child_idx]. destruct pf; [reflexivity|].
  unfold to_uint. rewrite Z.mod_small; [reflexivity|]. unfold INT_MAX in HN. lia.
Qed.

(** C1, as the code has it.  A child whose arguments hold [--child] and
    whose last [--id=] argument is [--id=N] ends through [_exit] (on
    Windows [ExitProcess]) at the end of the child worker, and its exit
    code is [N], for every [N] from 0 to 255 on Unix and from 0 to
    [INT_MAX] on Windows. *)
Theorem child_exit_code_is_index
    (pf : platform) (e : env) (argv pre post : list string) (N : Z) :
  0 <= N <= max_index pf ->
  skipn 1 argv = (pre ++ ("--id=" ++ fmt_d N)%string :: post)%list ->
  In "--child" (skipn 1 argv) ->
  (forall a, In a post -> prefix "--id=" a = false) ->
  final (start e (main pf argv)) =
    match pf with Posix => Exited N | Win32 => ExitedProcess N end /\
  exit_code (final (start e (main pf argv))) = Some N.
Proof.
  intros HN Hargs Hc Hpost.
  assert (E : final (start e (main pf argv)) =
              match pf with Posix => Exited N | Win32 => ExitedProcess N end).
  { apply (child_work_gets_index pf e argv pre post N); try assumption.
    destruct pf; unfold max_index, INT_MAX in *; lia. }
  split; [exact E|]. rewrite E. destruct pf; cbn [exit_code max_index] in *.
  - now rewrite land_255_small.
  - unfold to_uint. rewrite Z.mod_small; [reflexivity|]. unfold INT_MAX in HN. lia.
Qed.

Lemma child_exit_code_is_index_witness :
  final (start sample_env (main Posix ["./proc_demo"; "--child"; "--id=2"])) = Exited 2 /\
  exit_code (final (start sample_env (main Posix ["./proc_demo"; "--child"; "--id=2"]))) =
    Some 2.
Proof.
  apply (child_exit_code_is_index Posix sample_env
           ["./proc_demo"; "--child"; "--id=2"] ["--child"] [] 2).
  - simpl. lia.
  - reflexivity.
  - simpl. now left.
  - intros a [].
Defined.

(** C1, as stated, fails on Unix from index 256 on: the child started
    with [--child --id=256] gives 256 to [_exit] and its exit code is 0. *)
Lemma child_exit_code_256 :
  final (start sample_env (main Posix ["./proc_demo"; "--child"; "--id=256"])) =
    Exited 256 /\
  exit_code (final (start sample_env (main Posix ["./proc_demo"; "--child"; "--id=256"]))) =
    Some 0 /\
  exit_code (final (start sample_env (main Posix ["./proc_demo"; "--child"; "--id=256"]))) <>
    Some 256.
Proof. repeat split. discriminate. Qed.

(** C4.  In the parent role the trace holds exactly two attempts to
    create a process.  The first follows the opening of round 1 and the
    second that of round 2.  Nothing is waited for before the first; the
    waits between the two are the one wait on the process of the first
    attempt (none if it failed), so that wait has returned when the second
    attempt is made; the waits after the second are the one wait on its
    process.  No round is opened and no attempt made anywhere else. *)
Theorem parent_rounds_in_sequence (pf : platform) (e : env) (argv : list string) :
  ~ In "--child" (skipn 1 argv) ->
  exists pre s1 mid s2 post,
    trace (start e (main pf argv)) = (pre ++ s1 :: mid ++ s2 :: post)%list /\
    is_spawn s1 = true /\ is_spawn s2 = true /\
    filter is_spawn pre = [] /\ filter is_spawn mid = [] /\
    filter is_spawn post = [] /\
    pick announced pre = [1] /\ pick announced mid = [2] /\
    pick announced post = [] /\
    pick wait_target pre = [] /\
    pick wait_target mid = option_list (spawn_handle s1) /\
    pick wait_target post = option_list (spawn_handle s2).
Proof.
  intros Hn.
  rewrite (main_without_child_flag pf argv Hn).
  destruct (run_parent pf e argv) as (hdr & evs1 & evs2 & ftr & -> & _ & Q1 & R1 & R2 & Q2 & _).
  now apply two_rounds.
Qed.

Lemma parent_rounds_in_sequence_witness :
  exists pre s1 mid s2 post,
    trace (start sample_env (main Posix ["./proc_demo"])) =
      (pre ++ s1 :: mid ++ s2 :: post)%list /\
    is_spawn s1 = true /\ is_spawn s2 = true /\
    filter is_spawn pre = [] /\ filter is_spawn mid = [] /\
    filter is_spawn post = [] /\
    pick announced pre = [1] /\ pick announced mid = [2] /\
    pick announced post = [] /\
    pick wait_target pre = [] /\
    pick wait_target mid = option_list (spawn_handle s1) /\
    pick wait_target post = option_list (spawn_handle s2).
Proof.
  apply (parent_rounds_in_sequence Posix sample_env ["./proc_demo"]).
  simpl. intros [].
Defined.

(** C5.  In the parent role [main] returns 0 and the exit code is 0
    whatever the environment answers: failed attempts, failed waits, any
    status.  A second attempt is made in every run; when the first
    attempt fails, nothing is waited for before the second is made. *)
Theorem parent_survives_failures (pf : platform) (e : env) (argv : list string) :
  ~ In "--child" (skipn 1 argv) ->
  final (start e (main pf argv)) = Returned 0 /\
  exit_code (final (start e (main pf argv))) = Some 0 /\
  exists pre s1 mid s2 post,
    trace (start e (main pf argv)) = (pre ++ s1 :: mid ++ s2 :: post)%list /\
    filter is_spawn pre = [] /\ is_spawn s1 = true /\
    filter is_spawn mid = [] /\ is_spawn s2 = true /\
    pick announced mid = [2] /\
    (spawn_handle s1 = None -> pick wait_target mid = []).
Proof.
  intros Hn.
  rewrite (main_without_child_flag pf argv Hn).
  destruct (run_parent pf e argv) as (hdr & evs1 & evs2 & ftr & Et & Ef & Q1 & R1 & R2 & Q2 & _).
  rewrite Ef, Et. split; [reflexivity|]. split; [reflexivity|].
  destruct (two_rounds hdr evs1 evs2 ftr Q1 R1 R2 Q2)
    as (pre & s1 & mid & s2 & post & E & S1 & S2 & Fp & Fm & _ & _ & Am & _ & _ & Wm & _).
  exists pre, s1, mid, s2, post. repeat split; try assumption.
  intros Hfail. now rewrite Wm, Hfail.
Qed.

Lemma parent_survives_failures_witness :
  final (start failing_env (main Posix ["./proc_demo"])) = Returned 0 /\
  exit_code (final (start failing_env (main Posix ["./proc_demo"]))) = Some 0 /\
  exists pre s1 mid s2 post,
    trace (start failing_env (main Posix ["./proc_demo"])) =
      (pre ++ s1 :: mid ++ s2 :: post)%list /\
    filter is_spawn pre = [] /\ is_spawn s1 = true /\
    filter is_spawn mid = [] /\ is_spawn s2 = true /\
    pick announced mid = [2] /\
    (spawn_handle s1 = None -> pick wait_target mid = []).
Proof.
  apply (parent_survives_failures Posix failing_env ["./proc_demo"]).
  simpl. intros [].
Defined.

(** The run in which both children are created and exit with their
    index, event by event. *)
Example parent_both_children_exit :
  start sample_env (main Posix ["./proc_demo"]) =
  {| trace :=
       [EvPrintf "[parent] starting. (this is the terminal)\n" [];
        EvGetpid 4242;
        EvPrintf "[parent] My PID: %d\n" [PInt 4242];
        EvPrintf "\n[parent] Creating child process #%d...\n" [PInt 1];
        EvFork 4247;
        EvPrintf "[parent] Successfully created child #%d (pid=%d)\n"
          [PInt 1; PInt 4247];
        EvPrintf "[parent] Waiting for child #%d to finish...\n" [PInt 1];
        EvWaitpid 4247 0 4247 256;
        EvPrintf "[parent] Child #%d exited normally with code %d\n"
          [PInt 1; PInt 1];
        EvPrintf "\n[parent] Creating child process #%d...\n" [PInt 2];
        EvFork 4253;
        EvPrintf "[parent] Successfully created child #%d (pid=%d)\n"
          [PInt 2; PInt 4253];
        EvPrintf "[parent] Waiting for child #%d to finish...\n" [PInt 2];
        EvWaitpid 4253 0 4253 512;
        EvPrintf "[parent] Child #%d exited normally with code %d\n"
          [PInt 2; PInt 2];
        EvPrintf "\n[parent] All child processes completed successfully!\n" [];
        EvPrintf "[parent] Parent process terminating...\n" []];
     spawned :=
       [fork_child ["./proc_demo"] 1 (posix_round ["./proc_demo"] 2 parent_end);
        fork_child ["./proc_demo"] 2 parent_end];
     final := Returned 0 |}.
Proof. reflexivity. Qed.

(** The run in which both attempts fail, event by event. *)
Example parent_both_forks_fail :
  start failing_env (main Posix ["./proc_demo"]) =
  {| trace :=
       [EvPrintf "[parent] starting. (this is the terminal)\n" [];
        EvGetpid 4242;
        EvPrintf "[parent] My PID: %d\n" [PInt 4242];
        EvPrintf "\n[parent] Creating child process #%d...\n" [PInt 1];
        EvFork (-1);
        EvPerror "[parent] fork failed";
        EvPrintf "\n[parent] Creating child process #%d...\n" [PInt 2];
        EvFork (-1);
        EvPerror "[parent] fork failed";
        EvPrintf "\n[parent] All child processes completed successfully!\n" [];
        EvPrintf "[parent] Parent process terminating...\n" []];
     spawned := [];
     final := Returned 0 |}.
Proof. reflexivity. Qed.

(** C6.  The status of a process that exited with code [K] is decoded as
    [NormalExit K], the status of a process killed by signal [S] as
    [Signaled S], with or without a core dump.  No status is both: one
    that passes [WIFEXITED] fails [WIFSIGNALED].  The two are reported
    with different lines, and a status that is neither is reported by the
    third line, which holds the status word itself. *)
Theorem wait_status_decoding (K S : Z) (core : bool) :
  0 <= K <= 255 -> 1 <= S <= 126 ->
  decode_status (status_of_exit K) = NormalExit K /\
  decode_status (status_of_signal S core) = Signaled S /\
  (forall status, WIFEXITED status = true -> WIFSIGNALED status = false) /\
  (forall i c s k, report i (NormalExit c) k <> report i (Signaled s) k) /\
  (forall status i k,
     WIFEXITED status = false -> WIFSIGNALED status = false ->
     decode_status status = Unknown status /\
     report i (decode_status status) k =
       Printf "[parent] Child #%d terminated with status 0x%x\n"
         [PInt i; PInt status] k).
Proof.
  intros HK HS.
  split; [now apply decode_exit|].
  split; [now apply decode_signal|].
  split; [exact exited_not_signaled|].
  split; [intros i c s k; cbn [report]; discriminate|].
  intros status i k He Hs. unfold decode_status. rewrite He, Hs.
  split; reflexivity.
Qed.

Lemma wait_status_decoding_witness :
  decode_status (status_of_exit 2) = NormalExit 2 /\
  decode_status (status_of_signal 9 false) = Signaled 9 /\
  (forall status, WIFEXITED status = true -> WIFSIGNALED status = false) /\
  (forall i c s k, report i (NormalExit c) k <> report i (Signaled s) k) /\
  (forall status i k,
     WIFEXITED status = false -> WIFSIGNALED status = false ->
     decode_status status = Unknown status /\
     report i (decode_status status) k =
       Printf "[parent] Child #%d terminated with status 0x%x\n"
         [PInt i; PInt status] k).
Proof. apply (wait_status_decoding 2 9 false); lia. Defined.

(** A status that is neither: a child stopped by signal 19. *)
Example decode_stopped : decode_status 4991 = Unknown 4991.
Proof. reflexivity. Qed.

(** C8.  Every process the parent forks, when its [execvp] fails, calls
    [perror] and then [_exit(127)]: nothing else follows the failed call.
    Its exit code 127 is not 0, and it is not the exit code 1 or 2 of a
    child worker the parent starts. *)
Theorem exec_failure_exits_127 (e e' : env) (argv : list string) (c : proc) :
  ~ In "--child" (skipn 1 argv) ->
  In c (spawned (start e (main Posix argv))) ->
  (forall h, execvp_fails e' h = true) ->
  final (start e' c) = Exited 127 /\
  exit_code (final (start e' c)) = Some 127 /\
  (exists pre file args,
     trace (start e' c) =
       (pre ++ [EvExecvp file args true; EvPerror "[child] execvp failed"])%list) /\
  exit_code (final (start e' c)) <> Some 0 /\
  (forall i prog e2, 1 <= i <= 2 ->
     exit_code (final (start e2 (main Posix [prog; "--child"; ("--id=" ++ fmt_d i)%string]))) =
       Some i /\
     exit_code (final (start e' c)) <> Some i).
Proof.
  intros Hn Hc Hfail. rewrite (main_without_child_flag Posix argv Hn) in Hc.
  destruct (run_parent Posix e argv) as (_ & _ & _ & _ & _ & _ & _ & _ & _ & _ & Hch).
  destruct (Hch c Hc) as (i & k & _ & ->).
  destruct (run_fork_child e' argv i k [] [] Hfail) as (pre & file & args & E).
  change (run e' (fork_child argv i k) [] []) with (start e' (fork_child argv i k)) in E.
  rewrite E. cbn [final trace exit_code app].
  split; [reflexivity|]. split; [reflexivity|].
  split; [now exists pre, file, args|].
  split; [discriminate|].
  intros j prog e2 Hj.
  rewrite (child_work_gets_index Posix e2 _ ["--child"] [] j);
    [ | unfold INT_MAX; lia | reflexivity | simpl; now left | intros a [] ].
  cbn [exit_code]. rewrite land_255_small by lia.
  split; [reflexivity|]. intros F. injection F as F. lia.
Qed.

Lemma exec_failure_exits_127_witness :
  let c := nth 0 (spawned (start sample_env (main Posix ["./proc_demo"]))) (Return 0) in
  final (start sample_env c) = Exited 127 /\
  exit_code (final (start sample_env c)) = Some 127 /\
  (exists pre file args,
     trace (start sample_env c) =
       (pre ++ [EvExecvp file args true; EvPerror "[child] execvp failed"])%list) /\
  exit_code (final (start sample_env c)) <> Some 0 /\
  (forall i prog e2, 1 <= i <= 2 ->
     exit_code (final (start e2 (main Posix [prog; "--child"; ("--id=" ++ fmt_d i)%string]))) =
       Some i /\
     exit_code (final (start sample_env c)) <> Some i).
Proof.
  intros c.
  apply (exec_failure_exits_127 sample_env sample_env ["./proc_demo"] c).
  - simpl. intros [].
  - simpl. now left.
  - reflexivity.
Defined.

End ProcessClaims.

(** ** More on the Role Resolver *)

Section ResolverMore.
Import CStr Proc ProcDemo Trace Script.

Lemma fold_is_child_values (l : list string) :
  forall g, is_child g = 0 \/ is_child g = 1 ->
    is_child (fold_left parse_arg l g) =
    if existsb (String.eqb "--child") l then 1 else is_child g.
Proof.
  induction l as [|a l IH]; intros g Hg; [reflexivity|].
  cbn [fold_left existsb]. destruct (String.eqb_spec "--child" a) as [<-|Hne].
  - cbn [orb]. now apply fold_is_child_set.
  - cbn [orb].
    assert (E : is_child (parse_arg g a) = is_child g).
    { unfold parse_arg. destruct (Z.eqb_spec (strcmp a "--child") 0) as [F|_].
      - apply strcmp_zero in F. congruence.
      - now destruct (strncmp a "--id=" 5 =? 0). }
    rewrite IH by (rewrite E; exact Hg). now rewrite E.
Qed.

Lemma parse_arg_child_idx (g : globals) (a : string) :
  child_idx (parse_arg g a) =
  match id_text a with
  | Some text => atoi text
  | None => child_idx g
  end.
Proof.
  unfold parse_arg, id_text.
  destruct (Z.eqb_spec (strcmp a "--child") 0) as [E|_].
  - apply strcmp_zero in E. subst a. reflexivity.
  - destruct (Z.eqb_spec (strncmp a "--id=" 5) 0) as [E|E].
    + apply strncmp_prefix in E. now rewrite E.
    + destruct (prefix "--id=" a) eqn:P; [|reflexivity].
      apply strncmp_prefix in P. contradiction.
Qed.

Lemma fold_child_idx_closed (l : list string) :
  forall g,
    child_idx (fold_left parse_arg l g) =
    match hd_error (rev (pick id_text l)) with
    | Some text => atoi text
    | None => child_idx g
    end.
Proof.
  induction l as [|a l IH]; intros g; [reflexivity|].
  cbn [fold_left pick]. rewrite IH, parse_arg_child_idx.
  destruct (id_text a) as [t|]; [|reflexivity].
  cbn [rev]. destruct (rev (pick id_text l)); reflexivity.
Qed.

(** An argument the resolver does not know leaves the variables as they
    are. *)
Lemma parse_arg_unknown (g : globals) (a : string) :
  a <> "--child" -> prefix "--id=" a = false -> parse_arg g a = g.
Proof.
  intros Hc Hid. unfold parse_arg.
  destruct (Z.eqb_spec (strcmp a "--child") 0) as [E|_].
  - apply strcmp_zero in E. contradiction.
  - destruct (Z.eqb_spec (strncmp a "--id=" 5) 0) as [E|_]; [|reflexivity].
    apply strncmp_prefix in E. congruence.
Qed.

(** X1.  The resolver in one step.  For every argument list the flag is 1
    when [--child] is among [argv[1..]] and 0 otherwise, and the index is
    what [atoi] reads in the value text of the last argument that starts
    with [--id=], or 0 when there is none.  The order of the arguments
    matters in no other way, and [argv[0]] not at all. *)
Theorem parse_args_resolved (argv : list string) :
  parse_args argv initial_globals = resolved (skipn 1 argv).
Proof.
  unfold parse_args, resolved. apply globals_eq.
  - rewrite fold_is_child_values by now left. reflexivity.
  - now rewrite fold_child_idx_closed.
Qed.

(** X2.  An argument that is neither [--child] nor of the form [--id=...]
    changes nothing, wherever it stands: the resolved variables are the
    same with and without it, and [main] is the same program. *)
Theorem unknown_argument_ignored
    (pf : platform) (prog a : string) (l1 l2 : list string) :
  a <> "--child" -> prefix "--id=" a = false ->
  parse_args (prog :: l1 ++ a :: l2)%list initial_globals =
    parse_args (prog :: l1 ++ l2)%list initial_globals /\
  main pf (prog :: l1 ++ a :: l2)%list = main pf (prog :: l1 ++ l2)%list.
Proof.
  intros Hc Hid.
  assert (E : parse_args (prog :: l1 ++ a :: l2)%list initial_globals =
              parse_args (prog :: l1 ++ l2)%list initial_globals).
  { unfold parse_args. cbn [skipn]. rewrite !fold_left_app. cbn [fold_left].
    now rewrite parse_arg_unknown. }
  split; [exact E|]. unfold main. rewrite E.
  destruct (negb (is_child (parse_args (prog :: l1 ++ l2)%list initial_globals) =? 0));
    [reflexivity|].
  now apply parent_argv0.
Qed.

Lemma unknown_argument_ignored_witness :
  parse_args ["./proc_demo"; "--children"; "--id=3"] initial_globals =
    parse_args ["./proc_demo"; "--id=3"] initial_globals /\
  main Posix ["./proc_demo"; "--children"; "--id=3"] =
    main Posix ["./proc_demo"; "--id=3"].
Proof.
  apply (unknown_argument_ignored Posix "./proc_demo" "--children" [] ["--id=3"]).
  - discriminate.
  - reflexivity.
Defined.

End ResolverMore.

(** ** More on the child worker and on wait statuses *)

Section WorkerMore.
Import CStr WaitStatus Proc ProcDemo Trace Script.

Lemma land_255_mod (z : Z) : Z.land z 255 = z mod 256.
Proof. change 255 with (Z.ones 8). now rewrite Z.land_ones by lia. Qed.


(** The variables of a child started with [--child] and [--id=i] last. *)
Lemma parse_args_child_index (argv pre post : list string) (i : Z) :
  INT_MIN <= i <= INT_MAX ->
  skipn 1 argv = (pre ++ ("--id=" ++ fmt_d i)%string :: post)%list ->
  In "--child" (skipn 1 argv) ->
  (forall a, In a post -> prefix "--id=" a = false) ->
  parse_args argv initial_globals = {| is_child := 1; child_idx := i |}.
Proof.
  intros Hi Hargs Hc Hpost. apply globals_eq; unfold parse_args.
  - now apply fold_is_child_present.
  - rewrite Hargs, fold_child_idx_last by assumption. now apply atoi_fmt_d.
Qed.

(** X3.  The exit code of a child is its index cut to the width of an exit
    code: for every index [i] of type [int], negative ones included, a
    child whose last [--id=] argument is [--id=i] ends with exit code
    [i mod 256] on Unix and [i mod 2^32] on Windows. *)
Theorem child_exit_code_modulo
    (pf : platform) (e : env) (argv pre post : list string) (i : Z) :
  INT_MIN <= i <= INT_MAX ->
  skipn 1 argv = (pre ++ ("--id=" ++ fmt_d i)%string :: post)%list ->
  In "--child" (skipn 1 argv) ->
  (forall a, In a post -> prefix "--id=" a = false) ->
  exit_code (final (start e (main pf argv))) =
  Some match pf with
       | Posix => i mod 256
       | Win32 => i mod 4294967296
       end.
Proof.
  intros Hi Hargs Hc Hpost.
  unfold main, start.
  rewrite (parse_args_child_index argv pre post i Hi Hargs Hc Hpost).
  cbn [is_child Z.eqb negb]. rewrite run_child_work. cbn [child_idx].
  destruct pf; cbn [exit_code].
  - now rewrite land_255_mod.
  - unfold to_uint. now rewrite Z.mod_mod by lia.
Qed.

Lemma child_exit_code_modulo_witness :
  exit_code (final (start sample_env (main Posix ["./proc_demo"; "--id=-1"; "--child"]))) =
  Some ((-1) mod 256).
Proof.
  apply (child_exit_code_modulo Posix sample_env
           ["./proc_demo"; "--id=-1"; "--child"] [] ["--child"] (-1)).
  - unfold INT_MIN, INT_MAX. lia.
  - reflexivity.
  - simpl. right. now left.
  - simpl. intros a [<-|[]]. reflexivity.
Defined.

(** X4.  A process in the child role creates no process and waits for
    none, pauses once, for one second, and never returns from [main]: it
    ends inside the child worker, so the [return 0] written after the call
    is never reached. *)
Theorem child_role_run (pf : platform) (e : env) (argv : list string) :
  In "--child" (skipn 1 argv) ->
  spawned (start e (main pf argv)) = [] /\
  filter is_spawn (trace (start e (main pf argv))) = [] /\
  pick wait_target (trace (start e (main pf argv))) = [] /\
  pick slept (trace (start e (main pf argv))) = [1000] /\
  (forall code, final (start e (main pf argv)) <> Returned code).
Proof.
  intros Hc. unfold main.
  assert (E : is_child (parse_args argv initial_globals) = 1)
    by (unfold parse_args; now apply fold_is_child_present).
  rewrite E. cbn [Z.eqb negb].
  destruct pf; repeat split; intros code; discriminate.
Qed.

Lemma child_role_run_witness :
  spawned (start sample_env (main Win32 ["proc_demo.exe"; "--child"])) = [] /\
  filter is_spawn (trace (start sample_env (main Win32 ["proc_demo.exe"; "--child"]))) = [] /\
  pick wait_target (trace (start sample_env (main Win32 ["proc_demo.exe"; "--child"]))) = [] /\
  pick slept (trace (start sample_env (main Win32 ["proc_demo.exe"; "--child"]))) = [1000] /\
  (forall code,
     final (start sample_env (main Win32 ["proc_demo.exe"; "--child"])) <> Returned code).
Proof.
  apply (child_role_run Win32 sample_env ["proc_demo.exe"; "--child"]).
  simpl. now left.
Defined.




End WorkerMore.

(** ** The script of the parent *)

Section ParentScript.
Import CStr WaitStatus Proc ProcDemo Trace Script.

Lemma run_report (e : env) (i : Z) (t : termination) (k : proc)
    (tr : list event) (ch : list proc) :
  run e (report i t k) tr ch = run e k (tr ++ [report_event i t])%list ch.
Proof. now destruct t. Qed.

Lemma run_posix_round_events (e : env) (argv : list string) (i : Z) (k : proc)
    (tr : list event) (ch : list proc) :
  exists f w,
    run e (posix_round argv i k) tr ch =
    run e k (tr ++ posix_round_events i f w)%list
      (ch ++ match f with Some _ => [fork_child argv i k] | None => [] end)%list.
Proof.
  remember (run e (posix_round argv i k) tr ch) as r eqn:Hr.
  unfold posix_round in Hr. cbn [run] in Hr.
  destruct (fork_ans e _) as [pid|] in Hr; cbn [fork_ret] in Hr.
  - change (Z.pos pid <? 0) with false in Hr.
    change (Z.pos pid =? 0) with false in Hr.
    cbn [run] in Hr.
    destruct (waitpid_ans e _) as [s|] in Hr; rewrite run_report in Hr;
      repeat rewrite <- app_assoc in Hr; cbn [app] in Hr.
    + now exists (Some pid), (Some s).
    + now exists (Some pid), None.
  - change (-1 <? 0) with true in Hr. cbn [run] in Hr.
    repeat rewrite <- app_assoc in Hr; cbn [app] in Hr.
    exists None, None. now rewrite app_nil_r.
Qed.

Lemma run_win32_round_events (e : env) (self : string) (i : Z) (k : proc)
    (tr : list event) (ch : list proc) :
  exists c err x,
    run e (win32_round self i k) tr ch =
    run e k (tr ++ win32_round_events self i c err x)%list ch.
Proof.
  remember (run e (win32_round self i k) tr ch) as r eqn:Hr.
  unfold win32_round in Hr. cbn [run] in Hr.
  destruct (create_process_ans e _) as [pi|] in Hr; cbn [run] in Hr.
  - destruct (exit_code_ans e _) as [c|] in Hr; cbn [run] in Hr;
      repeat rewrite <- app_assoc in Hr; cbn [app] in Hr.
    + now exists (Some pi), 0, (Some c).
    + now exists (Some pi), 0, None.
  - repeat rewrite <- app_assoc in Hr; cbn [app] in Hr.
    eexists None, _, None. exact Hr.
Qed.

(** The run of the Unix parent, whole. *)
Lemma posix_parent_run (e : env) (argv : list string) :
  exists f1 w1 f2 w2,
    start e (parent Posix argv) =
    {| trace := (posix_header (getpid_ans e) ++ posix_round_events 1 f1 w1 ++
                 posix_round_events 2 f2 w2 ++ footer)%list;
       spawned := posix_children argv f1 f2;
       final := Returned 0 |}.
Proof.
  unfold start, parent. cbn [run]. rewrite for_range_1_2.
  match goal with
  | |- context [run e (posix_round argv 1 ?k) ?tr ?ch] =>
      destruct (run_posix_round_events e argv 1 k tr ch) as (f1 & w1 & E1)
  end.
  match goal with
  | _ : _ = run e (posix_round argv 2 ?k) ?tr ?ch |- _ =>
      destruct (run_posix_round_events e argv 2 k tr ch) as (f2 & w2 & E2)
  end.
  exists f1, w1, f2, w2. rewrite E1, E2.
  unfold parent_end. cbn [run]. unfold posix_children, posix_header, footer.
  repeat rewrite <- app_assoc. reflexivity.
Qed.

(** The run of the Windows parent, whole. *)
Lemma win32_parent_run (e : env) (argv : list string) :
  exists c1 err1 x1 c2 err2 x2,
    start e (parent Win32 argv) =
    let self := take 259 (module_file_name e) in
    {| trace := (win32_header self ++ win32_round_events self 1 c1 err1 x1 ++
                 win32_round_events self 2 c2 err2 x2 ++ footer)%list;
       spawned := [];
       final := Returned 0 |}.
Proof.
  unfold start, parent. cbn [run]. rewrite for_range_1_2.
  change (Z.to_nat (MAX_PATH - 1)) with 259%nat.
  match goal with
  | |- context [run e (win32_round ?self 1 ?k) ?tr ?ch] =>
      destruct (run_win32_round_events e self 1 k tr ch) as (c1 & err1 & x1 & E1)
  end.
  match goal with
  | _ : _ = run e (win32_round ?self 2 ?k) ?tr ?ch |- _ =>
      destruct (run_win32_round_events e self 2 k tr ch) as (c2 & err2 & x2 & E2)
  end.
  exists c1, err1, x1, c2, err2, x2. rewrite E1, E2.
  unfold parent_end. cbn [run]. unfold win32_header, footer.
  repeat rewrite <- app_assoc. reflexivity.
Qed.

End ParentScript.

(** ** What every run of the parent shows *)

Section ParentMore.
Import CStr WaitStatus Proc ProcDemo Trace Script.

(** Going through a trace that is written out, position by position: the
    positions that hold another event are set aside, the others are left as
    goals. *)
Ltac other_event H :=
  exfalso; cbn [nth_error] in H;
  first
    [ discriminate H
    | injection H as H; unfold ev_creating in H; discriminate H
    | injection H as H; unfold report_event in H;
      match type of H with
      | context [decode_status ?s] => destruct (decode_status s); discriminate H
      end ].

Ltac walk n H :=
  repeat match type of H with
         | nth_error (_ :: _) n = _ =>
             destruct n as [|n];
             [ try (other_event H);
               cbn [nth_error] in H; injection H; intros; subst
             | cbn [nth_error] in H ]
         end;
  try (exfalso; destruct n; discriminate H).

(** X6.  Every run of the Unix parent, whatever the environment answers:
    the three opening events, round 1, round 2, the two closing lines, and
    [return 0].  A round is three events when [fork] fails (the round is
    opened, [fork], [perror]) and six when it succeeds (opened, [fork], two
    lines, [waitpid] on the pid with options 0, the report).  The processes
    forked are those of the successful rounds, in order. *)
Theorem posix_parent_script (e : env) (argv : list string) :
  ~ In "--child" (skipn 1 argv) ->
  exists f1 w1 f2 w2,
    trace (start e (main Posix argv)) =
      (posix_header (getpid_ans e) ++ posix_round_events 1 f1 w1 ++
       posix_round_events 2 f2 w2 ++ footer)%list /\
    spawned (start e (main Posix argv)) = posix_children argv f1 f2 /\
    final (start e (main Posix argv)) = Returned 0.
Proof.
  intros Hn. rewrite (main_without_child_flag Posix argv Hn).
  destruct (posix_parent_run e argv) as (f1 & w1 & f2 & w2 & E).
  exists f1, w1, f2, w2. now rewrite E.
Qed.

Lemma posix_parent_script_witness :
  exists f1 w1 f2 w2,
    trace (start failing_env (main Posix ["./proc_demo"; "--id=4"])) =
      (posix_header (getpid_ans failing_env) ++ posix_round_events 1 f1 w1 ++
       posix_round_events 2 f2 w2 ++ footer)%list /\
    spawned (start failing_env (main Posix ["./proc_demo"; "--id=4"])) =
      posix_children ["./proc_demo"; "--id=4"] f1 f2 /\
    final (start failing_env (main Posix ["./proc_demo"; "--id=4"])) = Returned 0.
Proof.
  apply (posix_parent_script failing_env ["./proc_demo"; "--id=4"]).
  simpl. intros [H|[]]. discriminate H.
Defined.

(** X8.  In every run of the Unix parent, each [waitpid] is the fifth event
    of a round: it waits, with options 0, on the pid the [fork] of that
    round returned, and the very next event is the report for that round of
    the status as [decode_status] reads it.  The return value of [waitpid]
    plays no part: when the call fails the status is the 0 it was set to,
    and the report is that of a normal exit with code 0. *)
Theorem posix_wait_then_report (e : env) (argv : list string) :
  ~ In "--child" (skipn 1 argv) ->
  forall (n : nat) (pid options ret status : Z),
    nth_error (trace (start e (main Posix argv))) n =
      Some (EvWaitpid pid options ret status) ->
    options = 0 /\
    (ret = pid \/ (ret = -1 /\ decode_status status = NormalExit 0)) /\
    exists (i : Z) (m : nat),
      n = (4 + m)%nat /\
      nth_error (trace (start e (main Posix argv))) m = Some (ev_creating i) /\
      nth_error (trace (start e (main Posix argv))) (1 + m) = Some (EvFork pid) /\
      nth_error (trace (start e (main Posix argv))) (5 + m) =
        Some (report_event i (decode_status status)).
Proof.
  intros Hn n pid options ret status H.
  rewrite (main_without_child_flag Posix argv Hn) in *.
  destruct (posix_parent_run e argv) as (f1 & w1 & f2 & w2 & E).
  rewrite E in *. cbn [trace] in *. clear E.
  destruct f1 as [p1|], w1 as [s1|], f2 as [p2|], w2 as [s2|];
    unfold posix_header, footer in *; cbn [posix_round_events app] in *;
    walk n H;
    (split; [reflexivity|]);
    (split; [first [now left | right; split; reflexivity]|]);
    eexists _, _; repeat split.
Qed.

Lemma posix_wait_then_report_witness :
  0 = 0 /\
  (4247 = 4247 \/ (4247 = -1 /\ decode_status 256 = NormalExit 0)) /\
  exists (i : Z) (m : nat),
    7%nat = (4 + m)%nat /\
    nth_error (trace (start sample_env (main Posix ["./proc_demo"]))) m =
      Some (ev_creating i) /\
    nth_error (trace (start sample_env (main Posix ["./proc_demo"]))) (1 + m) =
      Some (EvFork 4247) /\
    nth_error (trace (start sample_env (main Posix ["./proc_demo"]))) (5 + m) =
      Some (report_event i (decode_status 256)).
Proof.
  apply (posix_wait_then_report sample_env ["./proc_demo"]).
  - simpl. intros [].
  - reflexivity.
Defined.

(** X7.  Every run of the Windows parent, whatever the environment
    answers: the three opening events, round 1, round 2, the two closing
    lines, and [return 0].  A round is five events when [CreateProcessA]
    fails and ten when it succeeds; the path used in both rounds is the
    module file name, cut to [MAX_PATH - 1] characters.  No process is
    forked. *)
Theorem win32_parent_script (e : env) (argv : list string) :
  ~ In "--child" (skipn 1 argv) ->
  exists c1 err1 x1 c2 err2 x2,
    let self := take 259 (module_file_name e) in
    trace (start e (main Win32 argv)) =
      (win32_header self ++ win32_round_events self 1 c1 err1 x1 ++
       win32_round_events self 2 c2 err2 x2 ++ footer)%list /\
    spawned (start e (main Win32 argv)) = [] /\
    final (start e (main Win32 argv)) = Returned 0.
Proof.
  intros Hn. rewrite (main_without_child_flag Win32 argv Hn).
  destruct (win32_parent_run e argv) as (c1 & err1 & x1 & c2 & err2 & x2 & E).
  exists c1, err1, x1, c2, err2, x2. now rewrite E.
Qed.

Lemma win32_parent_script_witness :
  exists c1 err1 x1 c2 err2 x2,
    let self := take 259 (module_file_name sample_env) in
    trace (start sample_env (main Win32 ["proc_demo.exe"])) =
      (win32_header self ++ win32_round_events self 1 c1 err1 x1 ++
       win32_round_events self 2 c2 err2 x2 ++ footer)%list /\
    spawned (start sample_env (main Win32 ["proc_demo.exe"])) = [] /\
    final (start sample_env (main Win32 ["proc_demo.exe"])) = Returned 0.
Proof.
  apply (win32_parent_script sample_env ["proc_demo.exe"]).
  simpl. intros [].
Defined.

Lemma closed_of_round (self : string) (i : Z)
    (c : option PROCESS_INFORMATION) (err : Z) (x : option Z) :
  pick closed (win32_round_events self i c err x) =
    flat_map (fun pi => [hThread pi; hProcess pi])
      (pick created (win32_round_events self i c err x)).
Proof. destruct c; reflexivity. Qed.

(** X9.  The life of a process handle on Windows.  In every run of the
    parent, a process that [CreateProcessA] created is waited for on its
    process handle without timeout, then asked for its exit code on the
    same handle, then reported with the code that call stored (0 when the
    call failed), and then its thread handle and its process handle are
    closed, in that order, in the next seven events.  Over the whole run
    the handles closed are those of the processes created and no others:
    nothing is closed after a failed attempt, nothing twice. *)
Theorem win32_handle_lifecycle (e : env) (argv : list string) :
  ~ In "--child" (skipn 1 argv) ->
  pick closed (trace (start e (main Win32 argv))) =
    flat_map (fun pi => [hThread pi; hProcess pi])
      (pick created (trace (start e (main Win32 argv)))) /\
  forall (n : nat) (cmd : string) (inherit : bool) (flags : Z)
         (pi : PROCESS_INFORMATION),
    nth_error (trace (start e (main Win32 argv))) n =
      Some (EvCreateProcessA cmd inherit flags (Some pi)) ->
    exists (i : Z) (ok : bool) (ec : Z),
      nth_error (trace (start e (main Win32 argv))) (3 + n) =
        Some (EvWaitForSingleObject (hProcess pi) INFINITE) /\
      nth_error (trace (start e (main Win32 argv))) (4 + n) =
        Some (EvGetExitCodeProcess (hProcess pi) ok ec) /\
      (ok = false -> ec = 0) /\
      nth_error (trace (start e (main Win32 argv))) (5 + n) =
        Some (EvPrintf "[parent] Child #%d exited with code %lu\n" [PInt i; PInt ec]) /\
      nth_error (trace (start e (main Win32 argv))) (6 + n) =
        Some (EvCloseHandle (hThread pi)) /\
      nth_error (trace (start e (main Win32 argv))) (7 + n) =
        Some (EvCloseHandle (hProcess pi)).
Proof.
  intros Hn.
  rewrite (main_without_child_flag Win32 argv Hn) in *.
  destruct (win32_parent_run e argv) as (c1 & err1 & x1 & c2 & err2 & x2 & E).
  rewrite E. cbn [trace]. clear E. split.
  - rewrite !pick_app, !flat_map_app, !closed_of_round. reflexivity.
  - intros n cmd inherit flags pi H.
    destruct c1 as [pi1|], x1 as [v1|], c2 as [pi2|], x2 as [v2|];
      unfold win32_header, footer in *; cbn [win32_round_events app] in *;
      walk n H;
      eexists _, _, _; cbn [nth_error Nat.add];
      repeat split; try reflexivity; intros F; try discriminate F.
Qed.

Lemma win32_handle_lifecycle_witness :
  pick closed (trace (start sample_env (main Win32 ["proc_demo.exe"]))) =
    flat_map (fun pi => [hThread pi; hProcess pi])
      (pick created (trace (start sample_env (main Win32 ["proc_demo.exe"])))) /\
  forall (n : nat) (cmd : string) (inherit : bool) (flags : Z)
         (pi : PROCESS_INFORMATION),
    nth_error (trace (start sample_env (main Win32 ["proc_demo.exe"]))) n =
      Some (EvCreateProcessA cmd inherit flags (Some pi)) ->
    exists (i : Z) (ok : bool) (ec : Z),
      nth_error (trace (start sample_env (main Win32 ["proc_demo.exe"]))) (3 + n) =
        Some (EvWaitForSingleObject (hProcess pi) INFINITE) /\
      nth_error (trace (start sample_env (main Win32 ["proc_demo.exe"]))) (4 + n) =
        Some (EvGetExitCodeProcess (hProcess pi) ok ec) /\
      (ok = false -> ec = 0) /\
      nth_error (trace (start sample_env (main Win32 ["proc_demo.exe"]))) (5 + n) =
        Some (EvPrintf "[parent] Child #%d exited with code %lu\n" [PInt i; PInt ec]) /\
      nth_error (trace (start sample_env (main Win32 ["proc_demo.exe"]))) (6 + n) =
        Some (EvCloseHandle (hThread pi)) /\
      nth_error (trace (start sample_env (main Win32 ["proc_demo.exe"]))) (7 + n) =
        Some (EvCloseHandle (hProcess pi)).
Proof.
  apply (win32_handle_lifecycle sample_env ["proc_demo.exe"]).
  simpl. intros [].
Defined.

(** X10.  A failed attempt is logged at once and ends its round.  On Unix
    a [fork] that returns no pid returned -1, [perror] follows it, and the
    event after that opens round 2 or is the first closing line.  On
    Windows a failed [CreateProcessA] is followed by [GetLastError], the
    line that prints the code it returned, and then the same.  The two
    closing lines end every run of the parent, failed attempts or not. *)
Theorem spawn_failure_logged (e : env) (argv : list string) :
  ~ In "--child" (skipn 1 argv) ->
  (forall (n : nat) (ret : Z),
     nth_error (trace (start e (main Posix argv))) n = Some (EvFork ret) ->
     ret <= 0 ->
     ret = -1 /\
     nth_error (trace (start e (main Posix argv))) (1 + n) =
       Some (EvPerror "[parent] fork failed") /\
     exists next,
       nth_error (trace (start e (main Posix argv))) (2 + n) = Some next /\
       (next = ev_creating 2 \/ hd_error footer = Some next)) /\
  (forall (n : nat) (cmd : string) (inherit : bool) (flags : Z),
     nth_error (trace (start e (main Win32 argv))) n =
       Some (EvCreateProcessA cmd inherit flags None) ->
     exists err next,
       nth_error (trace (start e (main Win32 argv))) (1 + n) =
         Some (EvGetLastError err) /\
       nth_error (trace (start e (main Win32 argv))) (2 + n) =
         Some (EvPrintf "[parent] CreateProcess failed (error code: %lu)\n"
                 [PInt err]) /\
       nth_error (trace (start e (main Win32 argv))) (3 + n) = Some next /\
       (next = ev_creating 2 \/ hd_error footer = Some next)) /\
  (forall pf, exists pre,
     trace (start e (main pf argv)) = (pre ++ footer)%list).
Proof.
  intros Hn.
  rewrite (main_without_child_flag Posix argv Hn).
  rewrite (main_without_child_flag Win32 argv Hn).
  destruct (posix_parent_run e argv) as (f1 & w1 & f2 & w2 & E).
  destruct (win32_parent_run e argv) as (c1 & err1 & x1 & c2 & err2 & x2 & E').
  rewrite E, E'. cbn [trace]. split; [|split].
  - clear E E'. intros n ret H Hret.
    destruct f1 as [p1|], w1 as [s1|], f2 as [p2|], w2 as [s2|];
      unfold posix_header, footer in *; cbn [posix_round_events app] in *;
      walk n H; try lia;
      (split; [reflexivity|]); (split; [reflexivity|]);
      eexists; (split; [reflexivity|]); first [now left | now right].
  - clear E E'. intros n cmd inherit flags H.
    destruct c1 as [pi1|], x1 as [v1|], c2 as [pi2|], x2 as [v2|];
      unfold win32_header, footer in *; cbn [win32_round_events app] in *;
      walk n H;
      eexists _, _; cbn [nth_error Nat.add];
      (split; [reflexivity|]); (split; [reflexivity|]);
      (split; [reflexivity|]); first [now left | now right].
  - intros pf. rewrite (main_without_child_flag pf argv Hn).
    destruct pf; [rewrite E|rewrite E']; cbn [trace]; eexists;
      rewrite !app_assoc; reflexivity.
Qed.

Lemma spawn_failure_logged_witness :
  (forall (n : nat) (ret : Z),
     nth_error (trace (start failing_env (main Posix ["./proc_demo"]))) n =
       Some (EvFork ret) ->
     ret <= 0 ->
     ret = -1 /\
     nth_error (trace (start failing_env (main Posix ["./proc_demo"]))) (1 + n) =
       Some (EvPerror "[parent] fork failed") /\
     exists next,
       nth_error (trace (start failing_env (main Posix ["./proc_demo"]))) (2 + n) =
         Some next /\
       (next = ev_creating 2 \/ hd_error footer = Some next)) /\
  (forall (n : nat) (cmd : string) (inherit : bool) (flags : Z),
     nth_error (trace (start failing_env (main Win32 ["./proc_demo"]))) n =
       Some (EvCreateProcessA cmd inherit flags None) ->
     exists err next,
       nth_error (trace (start failing_env (main Win32 ["./proc_demo"]))) (1 + n) =
         Some (EvGetLastError err) /\
       nth_error (trace (start failing_env (main Win32 ["./proc_demo"]))) (2 + n) =
         Some (EvPrintf "[parent] CreateProcess failed (error code: %lu)\n"
                 [PInt err]) /\
       nth_error (trace (start failing_env (main Win32 ["./proc_demo"]))) (3 + n) =
         Some next /\
       (next = ev_creating 2 \/ hd_error footer = Some next)) /\
  (forall pf, exists pre,
     trace (start failing_env (main pf ["./proc_demo"])) = (pre ++ footer)%list).
Proof.
  apply (spawn_failure_logged failing_env ["./proc_demo"]).
  simpl. intros [].
Defined.

Lemma in_posix_children (argv : list string) (f1 f2 : option positive) (c : proc) :
  In c (posix_children argv f1 f2) ->
  exists i k, (i = 1 \/ i = 2) /\ c = fork_child argv i k.
Proof.
  unfold posix_children. intros H. apply in_app_or in H.
  destruct H as [H|H]; [destruct f1|destruct f2]; cbn [In] in H;
    try contradiction; destruct H as [<-|[]]; eexists _, _; split;
    try reflexivity; [now left|now right].
Qed.

(** X11.  A process the parent forks never takes part in the loop.  In
    whatever environment it runs, it creates no process and waits for none,
    and it ends in one of two ways: [execvp] replaced its image, or
    [execvp] failed and it called [_exit(127)].  The rest of the loop,
    which is written after the branch, is never run in it. *)
Theorem forked_child_leaves_loop (e e' : env) (argv : list string) (c : proc) :
  ~ In "--child" (skipn 1 argv) ->
  In c (spawned (start e (main Posix argv))) ->
  spawned (start e' c) = [] /\
  filter is_spawn (trace (start e' c)) = [] /\
  pick wait_target (trace (start e' c)) = [] /\
  (final (start e' c) = Exited 127 \/
   exists args, final (start e' c) = Replaced (nth_error argv 0) args).
Proof.
  intros Hn Hc. rewrite (main_without_child_flag Posix argv Hn) in Hc.
  destruct (posix_parent_run e argv) as (f1 & w1 & f2 & w2 & E).
  rewrite E in Hc. cbn [spawned] in Hc.
  destruct (in_posix_children argv f1 f2 c Hc) as (i & k & _ & ->).
  unfold start, fork_child, child_args. cbn [run nth].
  destruct (execvp_fails e' _); cbn [run spawned trace final].
  - repeat split. now left.
  - repeat split. right. now eexists.
Qed.

Lemma forked_child_leaves_loop_witness :
  let c := nth 1 (spawned (start sample_env (main Posix ["./proc_demo"]))) (Return 0) in
  spawned (start failing_env c) = [] /\
  filter is_spawn (trace (start failing_env c)) = [] /\
  pick wait_target (trace (start failing_env c)) = [] /\
  (final (start failing_env c) = Exited 127 \/
   exists args, final (start failing_env c) = Replaced (nth_error ["./proc_demo"] 0) args).
Proof.
  intros c.
  apply (forked_child_leaves_loop sample_env failing_env ["./proc_demo"] c).
  - simpl. intros [].
  - simpl. right. now left.
Defined.

(** X12.  From [fork] to the report, when all goes well.  A process the
    parent forks, when its [execvp] succeeds, is replaced by the program
    [argv[0]] with the arguments [argv[0]], [--child], [--id=i], for [i] 1
    or 2; the program started with these arguments ends through [_exit]
    with code [i]; and the status of such an exit is reported by the parent
    as a normal exit with code [i]. *)
Theorem forked_child_runs_worker
    (e e' : env) (prog : string) (rest : list string) (c : proc) :
  ~ In "--child" rest ->
  In c (spawned (start e (main Posix (prog :: rest)))) ->
  (forall h, execvp_fails e' h = false) ->
  exists i : Z,
    (i = 1 \/ i = 2) /\
    final (start e' c) =
      Replaced (Some prog) [prog; "--child"; ("--id=" ++ fmt_d i)%string] /\
    (forall e2,
       final (start e2 (main Posix [prog; "--child"; ("--id=" ++ fmt_d i)%string])) =
         Exited i) /\
    report_event i (decode_status (status_of_exit i)) =
      EvPrintf "[parent] Child #%d exited normally with code %d\n" [PInt i; PInt i].
Proof.
  intros Hn Hc Hok.
  rewrite (main_without_child_flag Posix (prog :: rest) Hn) in Hc.
  destruct (posix_parent_run e (prog :: rest)) as (f1 & w1 & f2 & w2 & E).
  rewrite E in Hc. cbn [spawned] in Hc.
  destruct (in_posix_children _ f1 f2 c Hc) as (i & k & Hi & ->).
  exists i. split; [exact Hi|].
  unfold start, fork_child. cbn [run]. rewrite Hok. cbn [final].
  destruct Hi as [-> | ->]; repeat split.
Qed.

Lemma forked_child_runs_worker_witness :
  let c := nth 0 (spawned (start sample_env (main Posix ["./proc_demo"]))) (Return 0) in
  exists i : Z,
    (i = 1 \/ i = 2) /\
    final (start exec_env c) =
      Replaced (Some "./proc_demo") ["./proc_demo"; "--child"; ("--id=" ++ fmt_d i)%string] /\
    (forall e2,
       final (start e2 (main Posix ["./proc_demo"; "--child"; ("--id=" ++ fmt_d i)%string])) =
         Exited i) /\
    report_event i (decode_status (status_of_exit i)) =
      EvPrintf "[parent] Child #%d exited normally with code %d\n" [PInt i; PInt i].
Proof.
  intros c.
  apply (forked_child_runs_worker sample_env exec_env "./proc_demo" [] c).
  - intros [].
  - simpl. now left.
  - reflexivity.
Defined.

Lemma string_length_app (s1 s2 : string) :
  String.length (s1 ++ s2) = (String.length s1 + String.length s2)%nat.
Proof. induction s1 as [|c r IH]; simpl; [reflexivity|now rewrite IH]. Qed.

Lemma take_length (s : string) : forall n, (String.length (take n s) <= n)%nat.
Proof.
  induction s as [|c r IH]; intros [|n]; simpl; try lia.
  specialize (IH n). lia.
Qed.

Lemma fmt_d_length (i : Z) :
  INT_MIN <= i <= INT_MAX -> (String.length (fmt_d i) <= 11)%nat.
Proof.
  unfold INT_MIN, INT_MAX. intros Hi. unfold fmt_d.
  destruct (Z.ltb_spec i 0) as [Hneg|Hpos].
  - pose proof (dec_length (- i) 9 ltac:(simpl; lia)). simpl. lia.
  - pose proof (dec_length i 9 ltac:(simpl; lia)). lia.
Qed.

(** The 512 bytes of [cmd] hold the command line of every child whose path
    fits [MAX_PATH]. *)
Lemma child_cmd_full (self : string) (i : Z) :
  (String.length self <= 259)%nat -> INT_MIN <= i <= INT_MAX ->
  child_cmd self i = full_cmd self i.
Proof.
  intros Hs Hi. unfold child_cmd, snprintf. fold (full_cmd self i).
  apply take_all. change (Z.to_nat (512 - 1)) with 511%nat.
  unfold full_cmd. cbn [String.length]. rewrite string_length_app.
  cbn [String.length]. rewrite string_length_app.
  pose proof (fmt_d_length i Hi).
  change (String.length " --child --id=") with 14%nat. lia.
Qed.

(** X13.  What [CreateProcessA] is given.  In every run of the Windows
    parent each call passes the command line of its round in full: a
    quote, the module file name (cut to [MAX_PATH - 1] characters), a
    quote, and [ --child --id=i] for the index [i] of the round that was
    opened two events before; the 512 bytes of [cmd] never cut it.
    Handles are not inherited and the creation flags are 0. *)
Theorem win32_create_process_arguments (e : env) (argv : list string) :
  ~ In "--child" (skipn 1 argv) ->
  forall (n : nat) (cmd : string) (inherit : bool) (flags : Z)
         (r : option PROCESS_INFORMATION),
    nth_error (trace (start e (main Win32 argv))) n =
      Some (EvCreateProcessA cmd inherit flags r) ->
    inherit = false /\ flags = 0 /\
    exists (i : Z) (m : nat),
      (i = 1 \/ i = 2) /\ n = (2 + m)%nat /\
      nth_error (trace (start e (main Win32 argv))) m = Some (ev_creating i) /\
      cmd = full_cmd (take 259 (module_file_name e)) i.
Proof.
  intros Hn n cmd inherit flags r H.
  rewrite (main_without_child_flag Win32 argv Hn) in *.
  destruct (win32_parent_run e argv) as (c1 & err1 & x1 & c2 & err2 & x2 & E).
  rewrite E in *. cbn [trace] in *. clear E.
  assert (L : forall i, i = 1 \/ i = 2 ->
            child_cmd (take 259 (module_file_name e)) i =
            full_cmd (take 259 (module_file_name e)) i).
  { intros i Hi. apply child_cmd_full; [apply take_length|].
    unfold INT_MIN, INT_MAX. lia. }
  destruct c1 as [pi1|], x1 as [v1|], c2 as [pi2|], x2 as [v2|];
    unfold win32_header, footer in *; cbn [win32_round_events app] in *;
    walk n H;
    (split; [reflexivity|]); (split; [reflexivity|]);
    eexists _, _; (split; [|split; [reflexivity|split; [reflexivity|]]]);
    first [ apply L; now left | apply L; now right | now left | now right ].
Qed.

Lemma win32_create_process_arguments_witness :
  false = false /\ 0 = 0 /\
  exists (i : Z) (m : nat),
    (i = 1 \/ i = 2) /\ 5%nat = (2 + m)%nat /\
    nth_error (trace (start sample_env (main Win32 ["proc_demo.exe"]))) m =
      Some (ev_creating i) /\
    full_cmd "C:\demo\proc_demo.exe" 1 =
      full_cmd (take 259 (module_file_name sample_env)) i.
Proof.
  apply (win32_create_process_arguments sample_env ["proc_demo.exe"]
           ltac:(simpl; intros []) 5%nat (full_cmd "C:\demo\proc_demo.exe" 1) false 0
           (Some {| hProcess := 64; hThread := 68; dwProcessId := 5005 |})).
  reflexivity.
Defined.

End ParentMore.
